(** * Verifier backend: the attestation controller and its signature chain

    A shallow embedding of [src/controller.ts] (the [Controller] class with
    its two operations [addSource] and [sign], and the helper
    [addSignatureCell]) together with the collaborators it calls.

    Cells of [@ton/core] are modelled as finite trees carrying a bit string
    and a list of child references; the asynchronous collaborators
    (compiler, content storage, chain reader, file system, signer) are
    modelled by a state-and-error monad that records every call in a trace. *)

From Stdlib Require Import ZArith Lia Ascii String.
From stdpp Require Import base option strings list gmap.

Open Scope Z_scope.
Open Scope string_scope.
Open Scope list_scope.

(** ** Errors

    Every [throw new Error(msg)] of the program is one constructor; the
    message is kept by [error_message]. *)

Inductive CompileOutcome := similar | not_similar | compile_error | unknown_error.

Inductive Error :=
  | InvalidCell
  | InvalidOperation
  | InvalidVerifierId
  | MessageExpired
  | InvalidSourcesRegistryAddress
  | InvalidVerifierBodyCell
  | InvalidSourcesRegistryBodyCell
  | InvalidDeploySourceOp
  | InvalidSignatureCell
  | InvalidSignature
  | NotInMultisigConfig
  | DuplicateSignature
  | AlreadySignedBySelf
  | TooManySignatures
  | QuorumTooSmall
  | CodeHashMismatch
  | InvalidCompilationResult (r : CompileOutcome)
  | TooManyReferences
  (* failures of the runtime and of the libraries *)
  | MalformedBoc
  | SliceUnderflow
  | BuilderOverflow
  | StorageFailure
  | JsonSyntaxError
  | JsTypeError.

Definition outcome_name (r : CompileOutcome) : string :=
  match r with
  | similar => "similar"
  | not_similar => "not_similar"
  | compile_error => "compile_error"
  | unknown_error => "unknown_error"
  end.

Definition error_message (e : Error) : string :=
  match e with
  | InvalidCell => "Invalid cell"
  | InvalidOperation => "Invalid operation"
  | InvalidVerifierId => "Invalid verifier id"
  | MessageExpired => "Message is expired"
  | InvalidSourcesRegistryAddress => "Invalid sources registry address"
  | InvalidVerifierBodyCell => "Invalid verifier body cell"
  | InvalidSourcesRegistryBodyCell => "Invalid sources registry body cell"
  | InvalidDeploySourceOp => "Invalid deploy source op"
  | InvalidSignatureCell => "Invalid signature cell"
  | InvalidSignature => "Invalid signature"
  | NotInMultisigConfig => "This verifier is not in the multisig config"
  | DuplicateSignature => "Duplicate signature"
  | AlreadySignedBySelf => "Invalid signature (signed by self)"
  | TooManySignatures => "Too many signatures"
  | QuorumTooSmall => "Mulisig quorum must be greater than 1"
  | CodeHashMismatch => "Code hash mismatch"
  | InvalidCompilationResult r => "Invalid compilation result: " +:+ outcome_name r
  | TooManyReferences =>
      "Each signature cell should have at most one ref to another sig cell"
  | MalformedBoc => "malformed bag of cells"
  | SliceUnderflow => "slice underflow"
  | BuilderOverflow => "builder overflow"
  | StorageFailure => "storage failure"
  | JsonSyntaxError => "SyntaxError"
  | JsTypeError => "TypeError"
  end.

Inductive Result (A : Type) :=
  | Ok (a : A)
  | Err (e : Error).
Arguments Ok {A} a.
Arguments Err {A} e.

#[global] Instance Result_ret : MRet Result := fun _ a => Ok a.
#[global] Instance Result_bind : MBind Result := fun _ _ f r =>
  match r with
  | Ok a => f a
  | Err e => Err e
  end.
#[global] Instance Result_fmap : FMap Result := fun _ _ f r =>
  match r with
  | Ok a => Ok (f a)
  | Err e => Err e
  end.

(** ** Cells, slices and builders of [@ton/core] *)

Definition Bits := list bool.

#[warnings="-register-all"]
Inductive Cell := mkCell (cbits : Bits) (crefs : list Cell).

Definition bits (c : Cell) : Bits := let '(mkCell b _) := c in b.
Definition refs (c : Cell) : list Cell := let '(mkCell _ r) := c in r.

(** [new Cell()] *)
Definition emptyCell : Cell := mkCell [] [].

Record Slice := mkSlice { remainingBits : Bits; remainingRefs : list Cell }.
Record Builder := mkBuilder { storedBits : Bits; storedRefs : list Cell }.

Definition beginParse (c : Cell) : Slice := mkSlice (bits c) (refs c).

Definition loadRef (s : Slice) : Result (Cell * Slice) :=
  match remainingRefs s with
  | [] => Err SliceUnderflow
  | r :: rs => Ok (r, mkSlice (remainingBits s) rs)
  end.

(** [slice.asBuilder()] copies what is left of the slice. *)
Definition asBuilder (s : Slice) : Builder :=
  mkBuilder (remainingBits s) (remainingRefs s).

(** A builder holds at most four references. *)
Definition storeRef (b : Builder) (c : Cell) : Result Builder :=
  if decide (4 <= length (storedRefs b))%nat then Err BuilderOverflow
  else Ok (mkBuilder (storedBits b) (storedRefs b ++ [c])).

Definition asCell (b : Builder) : Cell := mkCell (storedBits b) (storedRefs b).

(** A serialized bag of cells is represented by the roots it decodes to:
    the byte codec belongs to [@ton/core].  [Cell.fromBoc(buf)[0]] is
    [fromBoc0]; a buffer that does not decode has no root. *)
Definition Boc := list Cell.

Definition toBoc (c : Cell) : Boc := [c].

Definition fromBoc0 (b : Boc) : Result Cell :=
  match b with
  | c :: _ => Ok c
  | [] => Err MalformedBoc
  end.

(** *** Bit strings: big-endian unsigned integers and byte strings *)

Fixpoint uintOfBits_acc (acc : Z) (bs : Bits) : Z :=
  match bs with
  | [] => acc
  | b :: bs' => uintOfBits_acc (2 * acc + (if b then 1 else 0)) bs'
  end.

Definition uintOfBits (bs : Bits) : Z := uintOfBits_acc 0 bs.

Fixpoint bitsOfUint (width : nat) (z : Z) : Bits :=
  match width with
  | O => []
  | S w => bitsOfUint w (z / 2) ++ [Z.odd z]
  end.

Definition bitsOfAscii (a : ascii) : Bits :=
  let '(Ascii b0 b1 b2 b3 b4 b5 b6 b7) := a in [b7; b6; b5; b4; b3; b2; b1; b0].

Fixpoint bitsOfString (s : string) : Bits :=
  match s with
  | EmptyString => []
  | String a s' => bitsOfAscii a ++ bitsOfString s'
  end.

(** Whole bytes only: a tail shorter than a byte is not a character. *)
Fixpoint stringOfBits (bs : Bits) : string :=
  match bs with
  | b7 :: b6 :: b5 :: b4 :: b3 :: b2 :: b1 :: b0 :: rest =>
      String (Ascii b0 b1 b2 b3 b4 b5 b6 b7) (stringOfBits rest)
  | _ => EmptyString
  end.

(** ** [addSignatureCell] (controller.ts, lines 223-235)

    The recursion follows the first reference of [node]; it is structural
    on the cell.  [addSignatureCell_step] below restates it with the slice
    operations the source uses. *)

Fixpoint addSignatureCell (node sigCell : Cell) : Result Cell :=
  match node with
  | mkCell b [] =>
      asCell <$> storeRef (asBuilder (mkSlice b [])) sigCell
  | mkCell b (child :: rest) =>
      match rest with
      | _ :: _ => Err TooManyReferences
      | [] =>
          updated ← addSignatureCell child sigCell;
          asCell <$> storeRef (asBuilder (mkSlice b [])) updated
      end
  end.

(** ** Data of the controller (types.ts is not among the sources; the
    fields are the ones controller.ts reads and writes) *)

Inductive Compiler := func | fift | tact | tolk.

#[global] Instance Compiler_eq_dec : EqDecision Compiler.
Proof. solve_decision. Defined.
#[global] Instance CompileOutcome_eq_dec : EqDecision CompileOutcome.
Proof. solve_decision. Defined.

(** A source file as it appears in compile results, in the stored record
    and in a verification payload; [None] is an absent property. *)
Record SourceEntry := mkSourceEntry {
  filename : string;
  url : option string;
  path : option string;
  attrs : gmap string string
}.

Record CompileResult := mkCompileResult {
  result : CompileOutcome;
  error : option string;
  hash : option string;
  compilerSettings : gmap string string;
  sources : list SourceEntry
}.

Record SourceVerifyPayload := mkSourceVerifyPayload {
  svp_sources : list SourceEntry;
  svp_compiler : Compiler;
  svp_compilerSettings : gmap string string;
  svp_knownContractAddress : string;
  svp_knownContractHash : string;
  svp_tmpDir : string;
  svp_senderAddress : string
}.

(** The record stored off-chain as JSON ([SourceItem] of types.ts). *)
Record SourceItem := mkSourceItem {
  si_compilerSettings : option (gmap string string);
  si_compiler : Compiler;
  si_hash : string;
  si_verificationDate : Z;
  si_sources : list SourceEntry;
  si_knownContractAddress : string
}.

Record VerifyResult := mkVerifyResult {
  compileResult : CompileResult;
  sig : option string;
  ipfsLink : option string;
  msgCell : option Boc
}.

Record FileUploadSpec := mkFileUploadSpec { fu_path : string; fu_name : string }.

Record KeyPair := mkKeyPair { publicKey : Bits; secretKey : Bits }.

Record VerifierConfig := mkVerifierConfig { quorum : Z; verifiers : list Bits }.

Record ControllerConfig := mkControllerConfig {
  verifierId : string;
  privateKey : string;
  sourcesRegistryAddress : string;
  allowReverification : bool
}.

Record Controller := mkController {
  keypair : KeyPair;
  VERIFIER_SHA256 : Bits;
  config : ControllerConfig
}.

(** What [validateMessageCell] hands back to [sign]. *)
Record ValidatedMessage := mkValidatedMessage {
  ipfsPointer : string;
  codeCellHash : string;
  senderAddress : Bits;
  queryId : Z
}.

(** ** Effects

    One event per call to a collaborator, in the order the calls are made. *)

Inductive Event :=
  | EvCompile (c : Compiler) (p : SourceVerifyPayload)
  | EvIsProofDeployed (codeHash verifier : string) (answer : option bool)
  | EvGetVerifierConfig (verifier registry : string)
  | EvIpfsWrite (files : list FileUploadSpec)
  | EvIpfsWriteFromContent (contents : list string)
  | EvIpfsRead (pointer : option string)
  | EvMkdirp (dir : string)
  | EvWriteFile (file content : string)
  | EvLog (line : string)
  | EvSign (msgHash pk : Bits)
  | EvVerifySignature (msgHash sg pk : Bits).

Record State := mkState {
  ipfs : gmap string string;
  disk : gmap string string;
  trace : list Event
}.

Definition M (A : Type) : Type := State -> Result A * State.

#[global] Instance M_ret : MRet M := fun _ a st => (Ok a, st).
#[global] Instance M_bind : MBind M := fun _ _ f m st =>
  match m st with
  | (Ok a, st') => f a st'
  | (Err e, st') => (Err e, st')
  end.

Definition throw {A} (e : Error) : M A := fun st => (Err e, st).

Definition lift {A} (r : Result A) : M A := fun st => (r, st).

Definition emit (e : Event) : M unit := fun st =>
  (Ok tt, mkState (ipfs st) (disk st) (trace st ++ [e])).

(** ** The environment: collaborators and library functions

    Everything the controller calls that is not defined in the repository's
    sources, as functions of what they are given. *)

Record World := mkWorld {
  (* compilers[c].verify, reading the working directory *)
  compiler_verify : Compiler -> gmap string string -> SourceVerifyPayload -> CompileResult;
  (* TonReaderClient *)
  isProofDeployed : string -> string -> option bool;
  getVerifierConfig : string -> string -> VerifierConfig;
  (* content addressing of the storage provider *)
  ipfsHash : string -> string;
  (* utils.ts *)
  sha256 : string -> Bits;
  random64BitNumber : Z;
  now : Z;                               (* Date.now(), milliseconds *)
  (* tweetnacl *)
  keyPair_fromSecretKey : string -> KeyPair;
  sign_detached : Bits -> Bits -> Bits;
  sign_detached_verify : Bits -> Bits -> Bits -> bool;
  (* @ton/core *)
  cellHash : Cell -> Bits;
  Address_parse : string -> Result Bits;
  Address_toString : Bits -> string;
  (* Buffer, JSON, path *)
  toBase64 : Bits -> string;
  fromBase64 : string -> Bits;
  JSON_stringify : SourceItem -> string;
  JSON_parse : string -> Result SourceItem;
  path_join : string -> string -> string;
  (* constants of cell-builders.ts: the two operation codes and the
     lifetime given to a message *)
  FORWARD_MESSAGE_OP : Z;
  DEPLOY_SOURCE_OP : Z;
  validitySeconds : Z
}.

(** ** JavaScript helpers *)

(** Truthiness of a [string | null] value: [null] and the empty string are
    falsy. *)
Definition truthy (v : option string) : bool :=
  match v with
  | Some s => negb (String.eqb s "")
  | None => false
  end.

(** [s.replace(/^func/, "")] *)
Definition replace_leading_func (s : string) : string :=
  if String.prefix "func" s then String.substring 4 (String.length s - 4) s else s.

Fixpoint lastIndexOf_slash (s : string) (i : nat) (found : option nat) : option nat :=
  match s with
  | EmptyString => found
  | String c s' =>
      lastIndexOf_slash s' (S i) (if Ascii.eqb c "/" then Some i else found)
  end.

(** [p.substring(0, p.lastIndexOf("/"))]; an index of -1 is clamped to 0. *)
Definition parentDir (p : string) : string :=
  match lastIndexOf_slash p 0 None with
  | Some i => String.substring 0 i p
  | None => ""
  end.

Section Program.

Context (W : World).

(** ** Collaborator calls *)

Definition verify (c : Compiler) (p : SourceVerifyPayload) : M CompileResult :=
  fun st =>
    (Ok (compiler_verify W c (disk st) p),
     mkState (ipfs st) (disk st) (trace st ++ [EvCompile c p])).

Definition tonReader_isProofDeployed (codeHash verifier : string) : M (option bool) :=
  let answer := isProofDeployed W codeHash verifier in
  _ ← emit (EvIsProofDeployed codeHash verifier answer); mret answer.

Definition tonReader_getVerifierConfig (verifier registry : string) : M VerifierConfig :=
  _ ← emit (EvGetVerifierConfig verifier registry);
  mret (getVerifierConfig W verifier registry).

Definition store_all (contents : list string) (m : gmap string string) : gmap string string :=
  foldr (fun c acc => <[ipfsHash W c := c]> acc) m contents.

(** Modelled from the spec: [write] of the storage provider
    (ipfs-code-storage-provider.ts), content-addressed: one pointer per
    file, identical bytes give the identical pointer.  A file that is not
    on disk cannot be uploaded. *)
Definition ipfs_write (files : list FileUploadSpec) : M (list string) := fun st =>
  let tr := trace st ++ [EvIpfsWrite files] in
  match mapM (fun f => disk st !! fu_path f) files with
  | Some contents =>
      (Ok (ipfsHash W <$> contents), mkState (store_all contents (ipfs st)) (disk st) tr)
  | None => (Err StorageFailure, mkState (ipfs st) (disk st) tr)
  end.

(** Modelled from the spec: [writeFromContent] of the storage provider,
    one pointer per buffer. *)
Definition ipfs_writeFromContent (contents : list string) : M (list string) := fun st =>
  (Ok (ipfsHash W <$> contents),
   mkState (store_all contents (ipfs st)) (disk st)
           (trace st ++ [EvIpfsWriteFromContent contents])).

(** Modelled from the spec: [read] of the storage provider; a pointer that
    was never written, or no pointer at all, cannot be read. *)
Definition ipfs_read (pointer : option string) : M string := fun st =>
  let st' := mkState (ipfs st) (disk st) (trace st ++ [EvIpfsRead pointer]) in
  match pointer ≫= (fun p => ipfs st !! p) with
  | Some content => (Ok content, st')
  | None => (Err StorageFailure, st')
  end.

Definition mkdirp (dir : string) : M unit := emit (EvMkdirp dir).

Definition writeFile (file content : string) : M unit := fun st =>
  (Ok tt, mkState (ipfs st) (<[file := content]> (disk st))
                  (trace st ++ [EvWriteFile file content])).

Definition logger_info (line : string) : M unit := emit (EvLog line).

(** Modelled from the spec: [getNowHourRoundedDown] of utils.ts, the
    hour-rounded-down current timestamp, in milliseconds. *)
Definition getNowHourRoundedDown : Z := now W - now W mod 3600000.

(** ** Cell builders

    cell-builders.ts is not among the sources.  The layouts below are the
    ones of the data model (SignatureNode, ForwardedMessage, SignedPayload,
    DeploySourcePayload) and of the cells the repository's tests build by
    hand. *)

(** Modelled from the spec: [signatureCell] of cell-builders.ts, the
    detached signature of the hash of [msg] and the SignatureNode that
    holds it: 64 bytes of signature, 32 bytes of public key, no
    reference. *)
Definition signatureCell (msg : Cell) (kp : KeyPair) : M (Bits * Cell) :=
  let h := cellHash W msg in
  let sg := sign_detached W h (secretKey kp) in
  _ ← emit (EvSign h (publicKey kp));
  mret (sg, mkCell (sg ++ publicKey kp) []).

(** Modelled from the spec: [deploySource] of cell-builders.ts, the
    DeploySourcePayload: opCode, queryId, verifierIdHash, codeHash and the
    content pointer packed in a reference. *)
Definition deploySource (qid : Z) (codeHash ipfsLink : string) (verifier : Bits) : Cell :=
  mkCell (bitsOfUint 32 (DEPLOY_SOURCE_OP W) ++ bitsOfUint 64 qid ++ verifier
            ++ fromBase64 W codeHash)
         [mkCell (bitsOfUint 8 1 ++ bitsOfString ipfsLink) []].

(** Modelled from the spec: [cellToSign] of cell-builders.ts, the
    SignedPayload: verifierIdHash, expiresAt, senderAddress,
    sourcesRegistryAddress and the DeploySourcePayload by reference. *)
Definition cellToSign (sender : string) (qid : Z) (codeHash ipfsLink registry : string)
    (verifier : Bits) : Result Cell :=
  senderBits ← Address_parse W sender;
  registryBits ← Address_parse W registry;
  mret (mkCell (verifier ++ bitsOfUint 32 (now W / 1000 + validitySeconds W)
                  ++ senderBits ++ registryBits)
               [deploySource qid codeHash ipfsLink verifier]).

(** Modelled from the spec: [verifierRegistryForwardMessage] of
    cell-builders.ts, the serialized ForwardedMessage: opCode, queryId, the
    payload and the chain head by reference. *)
Definition verifierRegistryForwardMessage (qid : Z) (msgToSign sigCell : Cell) : Boc :=
  toBoc (mkCell (bitsOfUint 32 (FORWARD_MESSAGE_OP W) ++ bitsOfUint 64 qid)
                [msgToSign; sigCell]).

(** ** Message validation

    validate-message-cell.ts is not among the sources; [sign] calls its
    [validateMessageCell] with the decoded root, the verifier's identity
    hash, the registry address, the key pair and the verifier-set config.
    Where the spec leaves a choice open the repository's tests decide:
    - the signature checks are made here, before [sign] touches storage
      (the tests of "Invalid signatures" expect them with an empty store);
    - a chain that already holds [quorum] signatures is rejected with
      [TooManySignatures] (test "More signatures than need": two
      signatures, quorum 2), that is, the count walked together with the
      signature about to be added must not exceed the quorum;
    - a running verifier whose own key is outside the config is rejected
      with [NotInMultisigConfig] (test "Sig does not belong to verifier
      id"). *)

(** Modelled from the spec: the Message Validator (section 4.2), the
    cascade of checks on the envelope in the spec's order; it returns the
    validated output with the payload cell and the chain head. *)
Definition validateEnvelope (cell : Cell) (verifierIdHash : Bits) (registry : string)
    : Result (ValidatedMessage * Cell * Cell) :=
  if decide (length (bits cell) < 96 \/ length (refs cell) < 2)%nat then Err InvalidCell
  else
    let opCode := uintOfBits (take 32 (bits cell)) in
    let qid := uintOfBits (take 64 (drop 32 (bits cell))) in
    if decide (opCode ≠ FORWARD_MESSAGE_OP W) then Err InvalidOperation
    else
      match refs cell with
      | body :: chain :: _ =>
          if decide (length (bits body) < 822 \/ length (refs body) < 1)%nat
          then Err InvalidVerifierBodyCell
          else
            let expiresAt := uintOfBits (take 32 (drop 256 (bits body))) in
            let sender := take 267 (drop 288 (bits body)) in
            if decide (take 256 (bits body) ≠ verifierIdHash) then Err InvalidVerifierId
            else if decide (expiresAt <= now W / 1000) then Err MessageExpired
            else
              configured ← Address_parse W registry;
              if decide (take 267 (drop 555 (bits body)) ≠ configured)
              then Err InvalidSourcesRegistryAddress
              else
                match refs body with
                | ds :: _ =>
                    if decide (length (bits ds) < 608 \/ length (refs ds) < 1)%nat
                    then Err InvalidSourcesRegistryBodyCell
                    else if decide (uintOfBits (take 32 (bits ds)) ≠ DEPLOY_SOURCE_OP W)
                    then Err InvalidDeploySourceOp
                    else if decide (take 256 (drop 96 (bits ds)) ≠ verifierIdHash)
                    then Err InvalidVerifierId
                    else
                      match refs ds with
                      | pointerCell :: _ =>
                          Ok (mkValidatedMessage
                                (stringOfBits (drop 8 (bits pointerCell)))
                                (toBase64 W (take 256 (drop 352 (bits ds))))
                                sender qid,
                              body, chain)
                      | [] => Err InvalidSourcesRegistryBodyCell
                      end
                | [] => Err InvalidVerifierBodyCell
                end
      | _ => Err InvalidCell
      end.

(** Modelled from the spec: the walk of the Multisig Validator (section
    4.3) over the chain, head to tail, with the checks made on each node in
    the spec's order; [seen] holds the public keys of the nodes walked so
    far, so its length is the count walked. *)
Fixpoint walkSignatures (msgHash : Bits) (cfg : VerifierConfig) (node : Cell)
    (seen : list Bits) : M (list Bits) :=
  match node with
  | mkCell b rs =>
      if decide (length b ≠ 768 \/ 1 < length rs)%nat then throw InvalidSignatureCell
      else
        let sg := take 512 b in
        let pk := drop 512 b in
        _ ← emit (EvVerifySignature msgHash sg pk);
        if negb (sign_detached_verify W msgHash sg pk) then throw InvalidSignature
        else if decide (pk ∉ verifiers cfg) then throw NotInMultisigConfig
        else if decide (pk ∈ seen) then throw DuplicateSignature
        else if decide (quorum cfg <= Z.of_nat (length (seen ++ [pk])))
        then throw TooManySignatures
        else
          match rs with
          | [] => mret (seen ++ [pk])
          | next :: _ => walkSignatures msgHash cfg next (seen ++ [pk])
          end
  end.

(** Modelled from the spec: the Multisig Validator (section 4.3): the
    quorum test before anything else, the walk, and the refusal of a chain
    that already holds the running verifier's own key. *)
Definition validateSignatureCell (head : Cell) (msgHash : Bits) (kp : KeyPair)
    (cfg : VerifierConfig) : M (list Bits) :=
  if decide (quorum cfg <= 1) then throw QuorumTooSmall
  else if decide (publicKey kp ∉ verifiers cfg) then throw NotInMultisigConfig
  else
    keys ← walkSignatures msgHash cfg head [];
    if decide (publicKey kp ∈ keys) then throw AlreadySignedBySelf else mret keys.

(** Modelled from the spec: [validateMessageCell] of
    validate-message-cell.ts, the envelope checks followed by the multisig
    validation of the second reference against the hash of the first. *)
Definition validateMessageCell (cell : Cell) (verifierIdHash : Bits) (registry : string)
    (kp : KeyPair) (cfg : VerifierConfig) : M ValidatedMessage :=
  '(v, body, chain) ← lift (validateEnvelope cell verifierIdHash registry);
  _ ← validateSignatureCell chain (cellHash W body) kp cfg;
  mret v.

(** ** The controller (controller.ts, lines 38-221) *)

Definition newController (cfg : ControllerConfig) : Controller :=
  mkController (keyPair_fromSecretKey W (privateKey cfg)) (sha256 W (verifierId cfg)) cfg.

(** The value [addSource] returns when it stops after compiling. *)
Definition onlyCompileResult (cr : CompileResult) : VerifyResult :=
  mkVerifyResult cr None None None.

(** The compile result returned for a proof that is already deployed
    (lines 80-86). *)
Definition alreadyDeployed (cr : CompileResult) : CompileResult :=
  mkCompileResult unknown_error (Some "Contract is already deployed") None
                  (compilerSettings cr) (sources cr).

(** [{ url: f, ...s }]: a [url] of [s] itself wins over [f]. *)
Definition withUrl (f : string) (s : SourceEntry) : SourceEntry :=
  mkSourceEntry (filename s) (Some (default f (url s))) (path s) (attrs s).

(** Lines 91-147, what [addSource] does once the compile result is accepted
    and the proof is not known to be deployed. *)
Definition publishAndSign (ctl : Controller) (vp : SourceVerifyPayload)
    (cr : CompileResult) : M VerifyResult :=
  let sourcesToUpload :=
    (fun s => mkFileUploadSpec (path_join W (svp_tmpDir vp) (filename s)) (filename s))
      <$> sources cr in
  fileLocators ← ipfs_write sourcesToUpload;
  (* one locator per uploaded file, so [fileLocators] and the sources
     have the same length *)
  let sourceSpec :=
    mkSourceItem (Some (compilerSettings cr)) (svp_compiler vp) (default "" (hash cr))
                 getNowHourRoundedDown
                 (zip_with withUrl fileLocators (sources cr))
                 (svp_knownContractAddress vp) in
  links ← ipfs_writeFromContent [JSON_stringify W sourceSpec];
  match links with
  | [] => throw JsTypeError
  | link :: _ =>
      _ ← logger_info link;
      let qid := random64BitNumber W in
      msgToSign ← lift (cellToSign (svp_senderAddress vp) qid (default "" (hash cr)) link
                          (sourcesRegistryAddress (config ctl)) (VERIFIER_SHA256 ctl));
      '(sg, sigCell) ← signatureCell msgToSign (keypair ctl);
      mret (mkVerifyResult cr (Some (toBase64 W sg)) (Some link)
              (Some (verifierRegistryForwardMessage qid msgToSign sigCell)))
  end.

Definition addSource (ctl : Controller) (vp : SourceVerifyPayload) : M VerifyResult :=
  cr ← verify (svp_compiler vp) vp;
  if truthy (error cr) || negb (bool_decide (result cr = similar)) || negb (truthy (hash cr))
  then mret (onlyCompileResult cr)
  else if negb (allowReverification (config ctl)) then
    isDeployed ← tonReader_isProofDeployed (svp_knownContractHash vp)
                   (verifierId (config ctl));
    if bool_decide (isDeployed = Some true)
    then mret (onlyCompileResult (alreadyDeployed cr))
    else publishAndSign ctl vp cr
  else publishAndSign ctl vp cr.

(** The settings replayed by [sign] (lines 194-199): the stored settings
    with [commandLine] replaced by the stored one without a leading "func";
    without stored settings, or without a stored command line, there is no
    command line. *)
Definition replaySettings (stored : option (gmap string string)) : gmap string string :=
  let settings := default ∅ stored in
  match settings !! "commandLine" with
  | Some cl => <["commandLine" := replace_leading_func cl]> settings
  | None => settings
  end.

(** One callback of the [Promise.all] of lines 176-189; the callbacks are
    run one after the other, in the order of the list. *)
Definition fetchSource (tmpDir : string) (s : SourceEntry) : M SourceEntry :=
  content ← ipfs_read (url s);
  let filePath := path_join W tmpDir (filename s) in
  _ ← mkdirp (parentDir filePath);
  _ ← writeFile filePath content;
  mret (mkSourceEntry (filename s) (url s) (Some (filename s)) (attrs s)).

Definition sourceToVerify (json : SourceItem) (srcs : list SourceEntry) (tmpDir : string)
    (sender : Bits) : SourceVerifyPayload :=
  mkSourceVerifyPayload srcs (si_compiler json) (replaySettings (si_compilerSettings json))
    (si_knownContractAddress json) (si_hash json) tmpDir (Address_toString W sender).

(** Lines 212-219. *)
Definition appendOwnSignature (ctl : Controller) (cell : Cell) : M Boc :=
  let slice := beginParse cell in
  '(msgToSign, slice) ← lift (loadRef slice);
  '(_, sigCell) ← signatureCell msgToSign (keypair ctl);
  '(head, slice) ← lift (loadRef slice);
  updateSigCell ← lift (addSignatureCell head sigCell);
  root ← lift (b ← storeRef (asBuilder slice) msgToSign; storeRef b updateSigCell);
  mret (toBoc (asCell root)).

(** Lines 166-219, what [sign] does with a validated message. *)
Definition recompileAndSign (ctl : Controller) (cell : Cell) (tmpDir : string)
    (v : ValidatedMessage) : M Boc :=
  sourceTemp ← ipfs_read (Some (ipfsPointer v));
  json ← lift (JSON_parse W sourceTemp);
  if bool_decide (si_hash json ≠ codeCellHash v) then throw CodeHashMismatch
  else
    srcs ← mapM (fetchSource tmpDir) (si_sources json);
    cr ← verify (si_compiler json) (sourceToVerify json srcs tmpDir (senderAddress v));
    if bool_decide (result cr ≠ similar) then throw (InvalidCompilationResult (result cr))
    else appendOwnSignature ctl cell.

Definition sign (ctl : Controller) (messageCell : Boc) (tmpDir : string) : M Boc :=
  cell ← lift (fromBoc0 messageCell);
  verifierConfig ← tonReader_getVerifierConfig (verifierId (config ctl))
                     (sourcesRegistryAddress (config ctl));
  v ← validateMessageCell cell (VERIFIER_SHA256 ctl) (sourcesRegistryAddress (config ctl))
        (keypair ctl) verifierConfig;
  recompileAndSign ctl cell tmpDir v.

(** The state once the verifier config has been fetched, and the outcome of
    validating [cell] from there: the first two calls of [sign]. *)
Definition afterConfigQuery (ctl : Controller) (st : State) : State :=
  mkState (ipfs st) (disk st)
    (trace st ++ [EvGetVerifierConfig (verifierId (config ctl))
                    (sourcesRegistryAddress (config ctl))]).

Definition validated (ctl : Controller) (cell : Cell) (st : State)
    : Result ValidatedMessage * State :=
  validateMessageCell cell (VERIFIER_SHA256 ctl) (sourcesRegistryAddress (config ctl))
    (keypair ctl)
    (getVerifierConfig W (verifierId (config ctl)) (sourcesRegistryAddress (config ctl)))
    (afterConfigQuery ctl st).

Definition afterRead (pointer : string) (st : State) : State :=
  mkState (ipfs st) (disk st) (trace st ++ [EvIpfsRead (Some pointer)]).

(** The node [sign] adds: the signature of the payload hash followed by
    the signer's public key. *)
Definition ownSignaturePayload (ctl : Controller) (payload : Cell) : Bits :=
  sign_detached W (cellHash W payload) (secretKey (keypair ctl)) ++ publicKey (keypair ctl).

Definition afterSigning (ctl : Controller) (payload : Cell) (st : State) : State :=
  mkState (ipfs st) (disk st)
          (trace st ++ [EvSign (cellHash W payload) (publicKey (keypair ctl))]).

End Program.

(** ** Chains as lists of payloads *)

(** The chain whose nodes carry [payloads], in order, each node pointing to
    the next and the last one to [last]. *)
Definition linkedFrom (payloads : list Bits) (last : Cell) : Cell :=
  foldr (fun b next => mkCell b [next]) last payloads.

(** The payloads met by following first references from [c]. *)
Fixpoint chainPayloads (c : Cell) : list Bits :=
  match c with
  | mkCell b [] => [b]
  | mkCell b (next :: _) => b :: chainPayloads next
  end.

(** [onSpine v c]: [v] is reached from [c] by following first references. *)
Inductive onSpine (v : Cell) : Cell -> Prop :=
  | onSpine_here : onSpine v v
  | onSpine_next b child rest : onSpine v child -> onSpine v (mkCell b (child :: rest)).

(** ** What counts as an output of a call

    Uploads to storage and signatures.  A run from [st] to [st'] is [inert]
    when it uploaded nothing and signed nothing. *)

Definition publishes (e : Event) : bool :=
  match e with
  | EvIpfsWrite _ | EvIpfsWriteFromContent _ | EvSign _ _ => true
  | _ => false
  end.

Definition inert (st st' : State) : Prop :=
  ipfs st' = ipfs st /\ filter publishes (trace st') = filter publishes (trace st).

Definition isCompile (e : Event) : bool :=
  match e with EvCompile _ _ => true | _ => false end.

Definition isStorageRead (e : Event) : bool :=
  match e with EvIpfsRead _ => true | _ => false end.

Definition isVerifySignature (e : Event) : bool :=
  match e with EvVerifySignature _ _ _ => true | _ => false end.

(** ** Runs of the controller

    [runs R m]: every run of [m] takes a state to one related to it by [R]. *)

Definition runs {A} (R : relation State) (m : M A) : Prop :=
  forall st r st', m st = (r, st') -> R st st'.

(** The run appended events that all satisfy [P], and nothing else. *)
Definition extendsWith (P : Event -> bool) (st st' : State) : Prop :=
  exists evs, trace st' = trace st ++ evs /\ forallb P evs = true.

Definition sameStorage (st st' : State) : Prop := ipfs st' = ipfs st.

(** Fetching the sources reads storage and writes scratch files. *)
Definition isFetch (e : Event) : bool :=
  match e with
  | EvIpfsRead _ | EvMkdirp _ | EvWriteFile _ _ => true
  | _ => false
  end.

(** The test of line 67: JavaScript truthiness of [error] and [hash]. *)
Definition stopsAfterCompile (cr : CompileResult) : bool :=
  truthy (error cr) || negb (bool_decide (result cr = similar)) || negb (truthy (hash cr)).

(** What storage and signing append to the trace. *)
Definition isPublication (e : Event) : bool :=
  match e with
  | EvIpfsWrite _ | EvIpfsWriteFromContent _ | EvLog _ | EvSign _ _ => true
  | _ => false
  end.

Definition afterCompile (vp : SourceVerifyPayload) (st : State) : State :=
  mkState (ipfs st) (disk st) (trace st ++ [EvCompile (svp_compiler vp) vp]).

(** Events that belong to validation: neither a storage read nor a
    compilation. *)
Definition beforeFetch (e : Event) : bool := negb (isCompile e) && negb (isStorageRead e).

Definition notVerifySignature (e : Event) : bool := negb (isVerifySignature e).

Definition notCompile (e : Event) : bool := negb (isCompile e).


(** ** Stub collaborators

    Deterministic stand-ins in the manner of the repository's test suite
    (StubCodeStorageProvider, StubSourceVerifier, StubTonReaderClient),
    used to run the controller on concrete messages. *)

Module Stub.

(** A toy content hash of 256 bits, folding children into the parent. *)
Fixpoint toyHash (c : Cell) : Z :=
  match c with
  | mkCell b rs =>
      (uintOfBits b + 31 * foldr (fun r acc => toyHash r + 7 * acc + 1) 0 rs)
        mod 2 ^ 256
  end.

Definition keyOf (secret : string) : Bits := bitsOfUint 256 (uintOfBits (bitsOfString secret)).

(** A toy detached signature: the message hash followed by the key. *)
Definition toySign (h sk : Bits) : Bits := h ++ sk.

Definition storedRecord (h : string) (settings : option (gmap string string))
    (c : Compiler) : SourceItem :=
  mkSourceItem settings c h 0 [] "N/A".

Definition world (cv : SourceVerifyPayload -> CompileResult) (deployed : option bool)
    (quorumOf : Z) (members : list Bits) (record : SourceItem) : World :=
  {| compiler_verify := fun _ _ p => cv p;
     isProofDeployed := fun _ _ => deployed;
     getVerifierConfig := fun _ _ => mkVerifierConfig quorumOf members;
     ipfsHash := fun content => "Qm" +:+ content;
     sha256 := fun s => bitsOfUint 256 (uintOfBits (bitsOfString s));
     random64BitNumber := 42;
     now := 1700000000000;
     keyPair_fromSecretKey := fun s => mkKeyPair (keyOf s) (keyOf s);
     sign_detached := toySign;
     sign_detached_verify := fun h sg pk => bool_decide (sg = toySign h pk);
     cellHash := fun c => bitsOfUint 256 (toyHash c);
     Address_parse := fun s => Ok (bitsOfUint 267 (uintOfBits (bitsOfString s)));
     Address_toString := fun _ => "address";
     toBase64 := stringOfBits;
     fromBase64 := bitsOfString;
     JSON_stringify := fun _ => "doc";
     JSON_parse := fun s => if String.eqb s "doc" then Ok record else Err JsonSyntaxError;
     path_join := fun a b => a +:+ "/" +:+ b;
     FORWARD_MESSAGE_OP := 1965127512;
     DEPLOY_SOURCE_OP := 1002;
     validitySeconds := 600 |}.

(** 32 bytes, as a base64 stand-in that [world] decodes to 256 bits. *)
Definition codeHash : string := "0123456789abcdef0123456789abcdef".

Definition similarResult (settings : gmap string string) (p : SourceVerifyPayload)
    : CompileResult :=
  mkCompileResult similar None (Some codeHash) settings [].

Definition cfgOf (secret : string) (allow : bool) : ControllerConfig :=
  mkControllerConfig "some verifier" secret "sourcesReg" allow.

Definition members3 : list Bits := [keyOf "A"; keyOf "B"; keyOf "C"].

Definition payload : SourceVerifyPayload :=
  mkSourceVerifyPayload [] func {["funcVersion" := "0.4.0"]} "N/A" "SomeHASH" "N/A" "sender".

Definition emptyState : State := mkState ∅ ∅ [].

Definition notSimilarResult (p : SourceVerifyPayload) : CompileResult :=
  mkCompileResult not_similar None (Some "another hash 0123456789abcdefXYZ") ∅ [].

Definition emptyErrorResult (p : SourceVerifyPayload) : CompileResult :=
  mkCompileResult similar (Some "") (Some codeHash) ∅ [].

Definition failedResult (p : SourceVerifyPayload) : CompileResult :=
  mkCompileResult similar (Some "some error") (Some codeHash) ∅ [].

(** The worlds of the examples: quorum 3 over the keys of "A", "B", "C"
    unless said otherwise. *)
Definition wSimilar : World :=
  world (similarResult ∅) (Some false) 3 members3 (storedRecord codeHash None func).
Definition wNotSimilar : World :=
  world notSimilarResult (Some false) 3 members3 (storedRecord codeHash None func).
Definition wTampered : World :=
  world notSimilarResult (Some false) 3 members3 (storedRecord "tampered" None func).
Definition wDeployed : World :=
  world (similarResult ∅) (Some true) 3 members3 (storedRecord codeHash None func).
Definition wEmptyError : World :=
  world emptyErrorResult (Some false) 3 members3 (storedRecord codeHash None func).
Definition wFailed : World :=
  world failedResult (Some false) 3 members3 (storedRecord codeHash None func).
Definition wQuorum1 : World :=
  world (similarResult ∅) (Some false) 1 [keyOf "A"] (storedRecord codeHash None func).
Definition wFift : World :=
  world (similarResult ∅) (Some false) 3 members3
    (storedRecord codeHash (Some {["commandLine" := "func -o out.fif"]}) fift).

Definition wFunc : World :=
  world (similarResult ∅) (Some false) 3 members3
    (storedRecord codeHash
       (Some {["commandLine" := "func -SPA"; "funcVersion" := "0.4.0"]}) func).

Definition controllerOf (secret : string) : Controller :=
  newController wSimilar (cfgOf secret false).

(** The signed payload, its signature nodes and the forwarded message,
    built as the repository's tests build them. *)
Definition body : Cell :=
  match cellToSign wSimilar "sender" 42 codeHash "someLink" "sourcesReg"
          (sha256 wSimilar "some verifier") with
  | Ok c => c
  | Err _ => emptyCell
  end.

Definition sigNode (signed : Cell) (secret : string) : Bits :=
  toySign (cellHash wSimilar signed) (keyOf secret) ++ keyOf secret.

Definition forward (chain : Cell) : Boc :=
  verifierRegistryForwardMessage wSimilar 42 body chain.

Definition signedByA : Boc := forward (mkCell (sigNode body "A") []).
Definition badlySignedByA : Boc := forward (mkCell (sigNode emptyCell "A") []).
Definition signedByABC : Boc :=
  forward (linkedFrom [sigNode body "A"; sigNode body "B"] (mkCell (sigNode body "C") [])).

(** The world of a test that mocks the verifier config. *)
Definition wConfig (quorumOf : Z) (members : list Bits) : World :=
  world (similarResult ∅) (Some false) quorumOf members (storedRecord codeHash None func).

(** The outcome of [sign] by the verifier with key "A" on a message with
    the given chain, as [expectSignThrow] of the tests observes it. *)
Definition signOutcome (w : World) (chain : Cell) : Result Boc :=
  fst (sign w (controllerOf "A") (forward chain) "" (mkState ∅ ∅ [])).

(** A root with the given bits and two empty references. *)
Definition wrapper (b : Bits) : Boc := [mkCell b [emptyCell; emptyCell]].

(** A store that holds the source record under the message's pointer. *)
Definition store : State := mkState {["someLink" := "doc"]} ∅ [].

Definition rootOf (msg : Boc) : Cell := default emptyCell (head msg).

Definition valueOf {A} (d : A) (r : Result A * State) : A :=
  match fst r with
  | Ok a => a
  | Err _ => d
  end.

Definition noMessage : ValidatedMessage := mkValidatedMessage "" "" [] 0.

End Stub.

(** ** More classes of events *)

Definition isSign (e : Event) : bool :=
  match e with EvSign _ _ => true | _ => false end.

Definition isDeploymentQuery (e : Event) : bool :=
  match e with EvIsProofDeployed _ _ _ => true | _ => false end.

Definition isConfigQuery (e : Event) : bool :=
  match e with EvGetVerifierConfig _ _ => true | _ => false end.

(** The calls [sign] can make: the config query, signature checks, storage
    reads, scratch files, the compilation and its own signature. *)
Definition signFootprint (e : Event) : bool :=
  match e with
  | EvGetVerifierConfig _ _ | EvVerifySignature _ _ _ | EvIpfsRead _
  | EvMkdirp _ | EvWriteFile _ _ | EvCompile _ _ | EvSign _ _ => true
  | _ => false
  end.

(** The calls [sign] can make once the message is validated. *)
Definition recompileFootprint (e : Event) : bool :=
  match e with
  | EvIpfsRead _ | EvMkdirp _ | EvWriteFile _ _ | EvCompile _ _ | EvSign _ _ => true
  | _ => false
  end.

(** Neither a compilation nor a signature. *)
Definition quietEvent (e : Event) : bool := negb (isCompile e) && negb (isSign e).

(** Files are only added or overwritten, never removed. *)
Definition diskGrows (st st' : State) : Prop :=
  forall file, is_Some (disk st !! file) -> is_Some (disk st' !! file).

(** The entry [fetchSource] returns for [s]: [{ ...s, path: s.filename }]. *)
Definition withPath (s : SourceEntry) : SourceEntry :=
  mkSourceEntry (filename s) (url s) (Some (filename s)) (attrs s).

Definition readable (store : gmap string string) (s : SourceEntry) : Prop :=
  is_Some (url s ≫= (fun p => store !! p)).

(** No "/" in the string. *)
Fixpoint noSlash (s : string) : bool :=
  match s with
  | EmptyString => true
  | String c s' => negb (Ascii.eqb c "/") && noSlash s'
  end.

(** ** The storage stub of the test suite (part_000, lines 25-48)

    [StubCodeStorageProvider]: a map from pointers to strings.  [write]
    hashes the names of the files and stores nothing; [writeFromContent]
    hashes each buffer and stores [file.toString("utf8")] under the hash,
    one buffer after the other; [read] looks the pointer up ([None] is
    JavaScript's undefined); [clear] empties the map.  [ipfsHashOfName] and
    [ipfsHashOf] stand for ipfs-only-hash on a string and on a buffer,
    [toUtf8] for Node's decoding of a buffer, which is lossy on bytes that
    are not valid UTF-8. *)

Module StubCodeStorageProvider.

Section Stub.

Context (ipfsHashOfName : string -> string).
Context (ipfsHashOf : list Byte.byte -> string).
Context (toUtf8 : list Byte.byte -> string).

Definition write (files : list FileUploadSpec) (storage : gmap string string)
    : list string * gmap string string :=
  ((fun file => ipfsHashOfName (fu_name file)) <$> files, storage).

Definition writeFromContent (files : list (list Byte.byte)) (storage : gmap string string)
    : list string * gmap string string :=
  (ipfsHashOf <$> files,
   fold_left (fun m file => <[ipfsHashOf file := toUtf8 file]> m) files storage).

Definition read (pointer : string) (storage : gmap string string) : option string :=
  storage !! pointer.

Definition clear (storage : gmap string string) : gmap string string := ∅.

End Stub.

End StubCodeStorageProvider.

(** ** The [SourceItem] contract wrapper (controller.ts, lines 238-270)

    [getData] runs the get method "get_source_item_data" and reads its
    stack with the [TupleReader] of [@ton/core]: [pop] fails on an empty
    stack, [readBigNumber] wants an integer, [skip] pops, [readCellOpt]
    takes null, or a cell, slice or builder. *)

#[warnings="-register-all"]
Inductive TupleItem :=
  | TupleNull
  | TupleInt (value : Z)
  | TupleNaN
  | TupleCell (cell : Cell)
  | TupleSlice (cell : Cell)
  | TupleBuilder (cell : Cell)
  | TupleTuple (items : list TupleItem).

Inductive TupleError := TupleEOF | NotANumber | NotACell.

Definition TupleReader := list TupleItem.

Definition tuple_pop (r : TupleReader) : TupleError + (TupleItem * TupleReader) :=
  match r with
  | [] => inl TupleEOF
  | item :: rest => inr (item, rest)
  end.

Definition readBigNumber (r : TupleReader) : TupleError + (Z * TupleReader) :=
  match tuple_pop r with
  | inl e => inl e
  | inr (TupleInt z, rest) => inr (z, rest)
  | inr (_, _) => inl NotANumber
  end.

Fixpoint tuple_skip (num : nat) (r : TupleReader) : TupleError + TupleReader :=
  match num with
  | O => inr r
  | S n =>
      match tuple_pop r with
      | inl e => inl e
      | inr (_, rest) => tuple_skip n rest
      end
  end.

Definition readCellOpt (r : TupleReader) : TupleError + (option Cell * TupleReader) :=
  match tuple_pop r with
  | inl e => inl e
  | inr (TupleNull, rest) => inr (None, rest)
  | inr (TupleCell c, rest) | inr (TupleSlice c, rest) | inr (TupleBuilder c, rest) =>
      inr (Some c, rest)
  | inr (_, _) => inl NotACell
  end.

(** [getData], given the stack the provider returns for
    [get("get_source_item_data", [])]. *)
Definition getData (get : string -> list TupleItem -> list TupleItem)
    : TupleError + (Z * option Cell) :=
  let stack := get "get_source_item_data" [] in
  match readBigNumber stack with
  | inl e => inl e
  | inr (verifier, stack1) =>
      match tuple_skip 2 stack1 with
      | inl e => inl e
      | inr stack2 =>
          match readCellOpt stack2 with
          | inl e => inl e
          | inr (data, _) => inr (verifier, data)
          end
      end
  end.

(** ** More stubs for concrete runs *)

Module StubMore.

Import Stub.

(** The controller of "A" with reverification allowed. *)
Definition controllerAllowing : Controller := newController wSimilar (cfgOf "A" true).




(** A decoder of buffers for the storage stub: every byte as one
    character. *)
Definition latin1 (buffer : list Byte.byte) : string :=
  string_of_list_ascii (ascii_of_byte <$> buffer).

(** A root with a third reference after the payload and the chain head. *)
Definition threeRefs : Cell :=
  mkCell [] [body; mkCell (sigNode body "A") []; emptyCell].

(** The stack of a deployed source item: verifier id, two entries that
    [getData] skips, and the data cell. *)
Definition itemStack (method : string) (args : list TupleItem) : list TupleItem :=
  [TupleInt 7; TupleNull; TupleNaN; TupleCell emptyCell; TupleInt 0].

End StubMore.

(** * Properties *)

(** ** Induction on cells *)

Lemma Cell_ind_refs (P : Cell -> Prop) :
  (forall b rs, Forall P rs -> P (mkCell b rs)) -> forall c, P c.
Proof.
  intros step. fix IH 1. intros [b rs]. apply step.
  induction rs as [|r rs IHrs]; constructor; [apply IH | exact IHrs].
Qed.

(** ** The append operation *)

(** [addSignatureCell], one step, written with the slice operations of the
    source: load the first reference if there is one, refuse a second one,
    rebuild the node around the updated child. *)
Lemma addSignatureCell_step node sigCell :
  addSignatureCell node sigCell =
    let slice := beginParse node in
    match remainingRefs slice with
    | _ :: _ =>
        '(child, slice') ← loadRef slice;
        match remainingRefs slice' with
        | _ :: _ => Err TooManyReferences
        | [] =>
            updated ← addSignatureCell child sigCell;
            asCell <$> storeRef (asBuilder slice') updated
        end
    | [] => asCell <$> storeRef (asBuilder slice) sigCell
    end.
Proof. destruct node as [b [|child [|second rest]]]; reflexivity. Qed.

Lemma addSignatureCell_linkedFrom ps t sigCell :
  addSignatureCell (linkedFrom ps (mkCell t [])) sigCell
  = Ok (linkedFrom (ps ++ [t]) sigCell).
Proof.
  induction ps as [|p ps IH]; simpl.
  - reflexivity.
  - rewrite IH. reflexivity.
Qed.

Lemma addSignatureCell_second_ref node v sigCell :
  onSpine v node -> (2 <= length (refs v))%nat ->
  addSignatureCell node sigCell = Err TooManyReferences.
Proof.
  intros Hspine Hrefs. induction Hspine as [|b child rest Hspine IH].
  - destruct v as [b [|c [|c' rs]]]; simpl in *; try lia. reflexivity.
  - simpl. destruct rest; [|reflexivity]. rewrite IH. reflexivity.
Qed.

Lemma addSignatureCell_ok_inv node sigCell r :
  addSignatureCell node sigCell = Ok r ->
  exists ps t, node = linkedFrom ps (mkCell t []) /\ r = linkedFrom (ps ++ [t]) sigCell.
Proof.
  revert r. induction node as [b rs IH] using Cell_ind_refs. intros r Hr.
  destruct rs as [|child [|second rest]]; simpl in Hr.
  - exists [], b. split; [reflexivity|]. inversion Hr. reflexivity.
  - inversion IH as [|? ? Hchild _]; subst.
    destruct (addSignatureCell child sigCell) as [u|e] eqn:Hu; simpl in Hr; [|discriminate].
    destruct (Hchild u eq_refl) as (ps & t & -> & ->).
    exists (b :: ps), t. split; [reflexivity|]. inversion Hr. reflexivity.
  - discriminate.
Qed.

Lemma chainPayloads_linkedFrom ps last :
  chainPayloads (linkedFrom ps last) = ps ++ chainPayloads last.
Proof. induction ps as [|p ps IH]; simpl; [reflexivity | by rewrite IH]. Qed.

Lemma addSignatureCell_chainPayloads node sigCell r :
  addSignatureCell node sigCell = Ok r ->
  chainPayloads r = chainPayloads node ++ chainPayloads sigCell.
Proof.
  intros Hr. apply addSignatureCell_ok_inv in Hr as (ps & t & -> & ->).
  rewrite !chainPayloads_linkedFrom. simpl. by rewrite <- app_assoc.
Qed.

(** C4. [addSignatureCell] follows the first references of the chain down
    to the node without references and attaches the new node there: a chain
    of payloads [ps ++ [t]] becomes the chain of the same payloads, in the
    same order, ending in the new node; this is the only way it succeeds;
    and it fails with [TooManyReferences] as soon as a node on the way
    carries a second reference. *)
Theorem addSignatureCell_appends_at_tail :
  (forall ps t sigCell,
     addSignatureCell (linkedFrom ps (mkCell t [])) sigCell
     = Ok (linkedFrom (ps ++ [t]) sigCell))
  /\ (forall node sigCell r,
        addSignatureCell node sigCell = Ok r ->
        exists ps t, node = linkedFrom ps (mkCell t [])
                     /\ r = linkedFrom (ps ++ [t]) sigCell)
  /\ (forall node v sigCell,
        onSpine v node -> (2 <= length (refs v))%nat ->
        addSignatureCell node sigCell = Err TooManyReferences).
Proof.
  split; [exact addSignatureCell_linkedFrom|].
  split; [exact addSignatureCell_ok_inv | exact addSignatureCell_second_ref].
Qed.

(** ** Reasoning about runs

    [runs R m]: every run of [m] takes a state to one related to it by [R].
    For a preorder [R] this is preserved by sequencing. *)

#[global] Instance extendsWith_preorder P : PreOrder (extendsWith P).
Proof.
  split.
  - intros st. exists []. by rewrite app_nil_r.
  - intros s1 s2 s3 (e1 & H1 & F1) (e2 & H2 & F2). exists (e1 ++ e2).
    rewrite H2, H1, <- app_assoc. split; [done|].
    rewrite forallb_app, F1, F2. done.
Qed.

#[global] Instance sameStorage_preorder : PreOrder sameStorage.
Proof.
  split; [done|]. intros s1 s2 s3 H1 H2. unfold sameStorage in *. congruence.
Qed.

#[global] Instance inert_preorder : PreOrder inert.
Proof.
  split; [done|]. intros s1 s2 s3 [H1 F1] [H2 F2]. split; congruence.
Qed.

Lemma extendsWith_weaken (P Q : Event -> bool) st st' :
  (forall e, P e = true -> Q e = true) -> extendsWith P st st' -> extendsWith Q st st'.
Proof.
  intros HPQ (evs & Htr & HP). exists evs. split; [done|].
  rewrite forallb_forall in *. auto.
Qed.

Lemma extendsWith_inert st st' :
  sameStorage st st' -> extendsWith (fun e => negb (publishes e)) st st' -> inert st st'.
Proof.
  intros Hs (evs & Htr & Hev). split; [done|]. rewrite Htr, filter_app.
  replace (filter publishes evs) with (@nil Event); [by rewrite app_nil_r|].
  clear Htr. induction evs as [|e evs IH]; [done|]. simpl in Hev.
  apply andb_true_iff in Hev as [He Hev]. rewrite filter_cons.
  destruct (decide (publishes e)) as [Hp|Hp]; [|auto].
  destruct (publishes e); [done | by destruct Hp].
Qed.

Section Runs.

Context (R : relation State) `{!PreOrder R}.

Lemma runs_ret {A} (a : A) : runs R (mret a).
Proof. intros st r st' Hrun. inversion Hrun; subst. reflexivity. Qed.

Lemma runs_throw {A} e : runs R (@throw A e).
Proof. intros st r st' Hrun. inversion Hrun; subst. reflexivity. Qed.

Lemma runs_lift {A} (x : Result A) : runs R (lift x).
Proof. intros st r st' Hrun. inversion Hrun; subst. reflexivity. Qed.

Lemma runs_bind {A B} (m : M A) (f : A -> M B) :
  runs R m -> (forall a, runs R (f a)) -> runs R (m ≫= f).
Proof.
  intros Hm Hf st r st' Hrun. unfold mbind, M_bind in Hrun.
  destruct (m st) as [[a|e] st1] eqn:Hmst.
  - transitivity st1; [by eapply Hm | by eapply Hf].
  - inversion Hrun; subst. by eapply Hm.
Qed.

Lemma runs_mapM {A B} (f : A -> M B) l :
  (forall a, runs R (f a)) -> runs R (mapM f l).
Proof.
  intros Hf. induction l as [|a l IH]; simpl.
  - apply runs_ret.
  - apply runs_bind; [apply Hf|]. intros b.
    apply runs_bind; [apply IH|]. intros bs. apply runs_ret.
Qed.

End Runs.

(** Sequencing, run by run. *)
Lemma bind_run {A B} (m : M A) (f : A -> M B) st :
  (m ≫= f) st = match m st with
                | (Ok a, st') => f a st'
                | (Err e, st') => (Err e, st')
                end.
Proof. reflexivity. Qed.

(** *** What each collaborator call appends to the trace *)

Section Footprints.

Context (W : World) (P : Event -> bool).

Lemma emit_extends e : P e = true -> runs (extendsWith P) (emit e).
Proof.
  intros HP st r st' Hrun. inversion Hrun; subst. exists [e]. simpl.
  by rewrite HP.
Qed.

Lemma emit_sameStorage e : runs sameStorage (emit e).
Proof. intros st r st' Hrun. by inversion Hrun. Qed.

Lemma verify_extends c p : P (EvCompile c p) = true -> runs (extendsWith P) (verify W c p).
Proof.
  intros HP st r st' Hrun. inversion Hrun; subst. exists [EvCompile c p]. simpl.
  by rewrite HP.
Qed.

Lemma verify_sameStorage c p : runs sameStorage (verify W c p).
Proof. intros st r st' Hrun. by inversion Hrun. Qed.

Lemma ipfs_read_extends p :
  P (EvIpfsRead p) = true -> runs (extendsWith P) (ipfs_read p).
Proof.
  intros HP st r st' Hrun. unfold ipfs_read in Hrun.
  exists [EvIpfsRead p]. simpl. rewrite HP.
  destruct (p ≫= _); inversion Hrun; subst; done.
Qed.

Lemma ipfs_read_sameStorage p : runs sameStorage (ipfs_read p).
Proof.
  intros st r st' Hrun. unfold ipfs_read in Hrun.
  destruct (p ≫= _); by inversion Hrun.
Qed.

Lemma writeFile_extends f c :
  P (EvWriteFile f c) = true -> runs (extendsWith P) (writeFile f c).
Proof.
  intros HP st r st' Hrun. inversion Hrun; subst. exists [EvWriteFile f c]. simpl.
  by rewrite HP.
Qed.

Lemma writeFile_sameStorage f c : runs sameStorage (writeFile f c).
Proof. intros st r st' Hrun. by inversion Hrun. Qed.

End Footprints.

Ltac runs_step :=
  match goal with
  | |- runs ?R (mbind _ _) => apply (runs_bind R); [|intros ?]
  | |- runs ?R (mret _) => apply (runs_ret R)
  | |- runs ?R (throw _) => apply (runs_throw R)
  | |- runs ?R (lift _) => apply (runs_lift R)
  | |- runs ?R (mapM _ _) => apply (runs_mapM R); intros ?
  | |- runs (extendsWith _) (emit _) => apply emit_extends; reflexivity
  | |- runs sameStorage (emit _) => apply emit_sameStorage
  | |- runs (extendsWith _) (mkdirp _) => apply emit_extends; reflexivity
  | |- runs sameStorage (mkdirp _) => apply emit_sameStorage
  | |- runs (extendsWith _) (verify _ _ _) => apply verify_extends; reflexivity
  | |- runs sameStorage (verify _ _ _) => apply verify_sameStorage
  | |- runs (extendsWith _) (ipfs_read _) => apply ipfs_read_extends; reflexivity
  | |- runs sameStorage (ipfs_read _) => apply ipfs_read_sameStorage
  | |- runs (extendsWith _) (writeFile _ _) => apply writeFile_extends; reflexivity
  | |- runs sameStorage (writeFile _ _) => apply writeFile_sameStorage
  | |- runs _ (if ?c then _ else _) => destruct c
  | |- runs _ (let '(_, _) := ?x in _) => destruct x
  end.

Ltac runs_auto := repeat runs_step.

Section Validation.

Context (W : World).

(** Validation only verifies signatures: it reads and writes no storage,
    compiles nothing and signs nothing. *)
Lemma walkSignatures_runs (R : relation State) `{!PreOrder R} h cfg :
  (forall sg pk, runs R (emit (EvVerifySignature h sg pk))) ->
  forall node seen, runs R (walkSignatures W h cfg node seen).
Proof.
  intros Hemit node. induction node as [b rs IH] using Cell_ind_refs. intros seen.
  simpl. destruct (decide _); [apply (runs_throw R)|].
  apply (runs_bind R); [apply Hemit|]. intros _.
  runs_auto. destruct rs as [|next rest]; [apply (runs_ret R)|].
  inversion IH; subst. auto.
Qed.

Lemma validateMessageCell_extends cell vid registry kp cfg :
  runs (extendsWith isVerifySignature) (validateMessageCell W cell vid registry kp cfg).
Proof.
  unfold validateMessageCell, validateSignatureCell. runs_auto.
  apply walkSignatures_runs; [apply _|]. intros. runs_auto.
Qed.

Lemma validateMessageCell_sameStorage cell vid registry kp cfg :
  runs sameStorage (validateMessageCell W cell vid registry kp cfg).
Proof.
  unfold validateMessageCell, validateSignatureCell. runs_auto.
  apply walkSignatures_runs; [apply _|]. intros. runs_auto.
Qed.

Lemma fetchSource_extends tmpDir s : runs (extendsWith isFetch) (fetchSource W tmpDir s).
Proof. unfold fetchSource. runs_auto. Qed.

Lemma fetchSource_sameStorage tmpDir s : runs sameStorage (fetchSource W tmpDir s).
Proof. unfold fetchSource. runs_auto. Qed.

End Validation.

(** ** [addSource] *)

Section AddSource.

Context (W : World).

Lemma addSource_stops_after_compile ctl vp st :
  let cr := compiler_verify W (svp_compiler vp) (disk st) vp in
  stopsAfterCompile cr = true ->
  addSource W ctl vp st = (Ok (onlyCompileResult cr), afterCompile vp st).
Proof.
  intros cr Hstop. unfold addSource. rewrite bind_run. unfold verify. simpl.
  fold cr. unfold stopsAfterCompile in Hstop. rewrite Hstop. reflexivity.
Qed.

Lemma afterCompile_inert vp st : inert st (afterCompile vp st).
Proof.
  split; [reflexivity|]. unfold afterCompile. simpl.
  rewrite filter_app. simpl. by rewrite app_nil_r.
Qed.

Lemma signatureCell_extends msg kp :
  runs (extendsWith isPublication) (signatureCell W msg kp).
Proof. unfold signatureCell. runs_auto. Qed.

Lemma publishAndSign_extends ctl vp cr :
  runs (extendsWith isPublication) (publishAndSign W ctl vp cr).
Proof.
  unfold publishAndSign. apply (runs_bind _).
  { intros st r st' Hrun. unfold ipfs_write in Hrun.
    exists [EvIpfsWrite ((fun s => mkFileUploadSpec (path_join W (svp_tmpDir vp) (filename s))
                                   (filename s)) <$> sources cr)].
    destruct (mapM _ _); inversion Hrun; subst; done. }
  intros locators. apply (runs_bind _).
  { intros st r st' Hrun. inversion Hrun; subst. eexists [_]. simpl. done. }
  intros [|link links]; [apply (runs_throw _)|].
  unfold logger_info. runs_auto. apply signatureCell_extends.
Qed.

End AddSource.

(** C3. When the compiler's result is not "similar", [addSource] returns
    that compile result and nothing else (no signature, no storage pointer,
    no message); the only call made is the compilation, so nothing is
    uploaded and nothing is signed. *)
Theorem addSource_not_similar_is_inert (W : World) (ctl : Controller)
    (vp : SourceVerifyPayload) (st : State) :
  let cr := compiler_verify W (svp_compiler vp) (disk st) vp in
  result cr ≠ similar ->
  exists r st',
    addSource W ctl vp st = (Ok r, st')
    /\ compileResult r = cr /\ sig r = None /\ ipfsLink r = None /\ msgCell r = None
    /\ inert st st'
    /\ trace st' = trace st ++ [EvCompile (svp_compiler vp) vp].
Proof.
  intros cr Hres. exists (onlyCompileResult cr), (afterCompile vp st).
  split; [|by repeat split; try apply afterCompile_inert].
  apply addSource_stops_after_compile. fold cr. unfold stopsAfterCompile.
  rewrite bool_decide_eq_false_2 by done. simpl. by rewrite orb_true_r.
Qed.

(** C10, as amended.  The early return of [addSource] is wider than a
    result that is not "similar": an [error] that is a non-empty string, or
    a [hash] that is null or empty, stops it in the same way, with the
    compile result alone and nothing uploaded or signed. *)
Theorem addSource_error_or_missing_hash_is_inert (W : World) (ctl : Controller)
    (vp : SourceVerifyPayload) (st : State) :
  let cr := compiler_verify W (svp_compiler vp) (disk st) vp in
  truthy (error cr) = true \/ truthy (hash cr) = false ->
  exists r st',
    addSource W ctl vp st = (Ok r, st')
    /\ compileResult r = cr /\ sig r = None /\ ipfsLink r = None /\ msgCell r = None
    /\ inert st st'
    /\ trace st' = trace st ++ [EvCompile (svp_compiler vp) vp].
Proof.
  intros cr Hstop. exists (onlyCompileResult cr), (afterCompile vp st).
  split; [|by repeat split; try apply afterCompile_inert].
  apply addSource_stops_after_compile. fold cr. unfold stopsAfterCompile.
  destruct Hstop as [-> | ->]; [done|]. by rewrite orb_true_r.
Qed.


(** ** [sign] *)

Section Sign.

Context (W : World).

Lemma sign_validated ctl msg tmpDir st cell :
  fromBoc0 msg = Ok cell ->
  sign W ctl msg tmpDir st =
    match validated W ctl cell st with
    | (Ok v, st2) => recompileAndSign W ctl cell tmpDir v st2
    | (Err e, st2) => (Err e, st2)
    end.
Proof. intros Hcell. unfold sign. rewrite Hcell. reflexivity. Qed.

Lemma sign_malformed ctl msg tmpDir st :
  fromBoc0 msg = Err MalformedBoc -> sign W ctl msg tmpDir st = (Err MalformedBoc, st).
Proof. intros Hcell. unfold sign. rewrite Hcell. reflexivity. Qed.

Lemma fromBoc0_cases msg :
  fromBoc0 msg = Err MalformedBoc \/ exists cell, fromBoc0 msg = Ok cell.
Proof. destruct msg; simpl; eauto. Qed.

Lemma validated_extends ctl cell st r st2 :
  validated W ctl cell st = (r, st2) ->
  extendsWith isVerifySignature (afterConfigQuery ctl st) st2
  /\ sameStorage (afterConfigQuery ctl st) st2.
Proof.
  intros Hv. split.
  - by eapply validateMessageCell_extends.
  - by eapply validateMessageCell_sameStorage.
Qed.

Lemma validated_inert ctl cell st r st2 :
  validated W ctl cell st = (r, st2) -> inert st st2.
Proof.
  intros Hv. apply validated_extends in Hv as [Hext Hsame].
  transitivity (afterConfigQuery ctl st).
  - split; [done|]. simpl. rewrite filter_app. simpl. by rewrite app_nil_r.
  - apply extendsWith_inert; [done|].
    eapply extendsWith_weaken; [|done]. by intros [].
Qed.

Lemma afterRead_inert p st : inert st (afterRead p st).
Proof. split; [done|]. simpl. rewrite filter_app. simpl. by rewrite app_nil_r. Qed.

Lemma recompileAndSign_read ctl cell tmpDir v st content :
  ipfs st !! ipfsPointer v = Some content ->
  recompileAndSign W ctl cell tmpDir v st =
    match JSON_parse W content with
    | Ok json =>
        if bool_decide (si_hash json ≠ codeCellHash v)
        then (Err CodeHashMismatch, afterRead (ipfsPointer v) st)
        else
          match mapM (fetchSource W tmpDir) (si_sources json) (afterRead (ipfsPointer v) st) with
          | (Ok srcs, st4) =>
              let p := sourceToVerify W json srcs tmpDir (senderAddress v) in
              let cr := compiler_verify W (si_compiler json) (disk st4) p in
              let st5 := mkState (ipfs st4) (disk st4)
                                 (trace st4 ++ [EvCompile (si_compiler json) p]) in
              if bool_decide (result cr ≠ similar)
              then (Err (InvalidCompilationResult (result cr)), st5)
              else appendOwnSignature W ctl cell st5
          | (Err e, st4) => (Err e, st4)
          end
    | Err e => (Err e, afterRead (ipfsPointer v) st)
    end.
Proof.
  intros Hread. unfold recompileAndSign. rewrite bind_run. unfold ipfs_read. simpl.
  rewrite Hread. fold (afterRead (ipfsPointer v) st). rewrite bind_run. unfold lift.
  destruct (JSON_parse W content) as [json|e]; [|reflexivity].
  destruct (bool_decide (si_hash json ≠ codeCellHash v)); [reflexivity|].
  rewrite bind_run.
  destruct (mapM (fetchSource W tmpDir) (si_sources json) (afterRead (ipfsPointer v) st))
    as [[srcs|e] st4]; [|reflexivity].
  rewrite bind_run. unfold verify. simpl.
  destruct (bool_decide _); reflexivity.
Qed.

Lemma fetchSources_inert tmpDir l st r st' :
  mapM (fetchSource W tmpDir) l st = (r, st') -> inert st st'.
Proof.
  intros Hrun. apply extendsWith_inert.
  - revert Hrun. apply (runs_mapM sameStorage). apply fetchSource_sameStorage.
  - eapply extendsWith_weaken; [|revert Hrun; apply (runs_mapM (extendsWith isFetch));
                                  apply fetchSource_extends].
    by intros [].
Qed.

End Sign.

(** C2. Once the message is validated and the SourceRecord it points to is
    fetched: a recorded hash different from the validated code hash makes
    [sign] fail with [CodeHashMismatch]; with equal hashes, a recompilation
    whose result is not "similar" makes it fail with
    [InvalidCompilationResult].  Either way nothing was signed and nothing
    was uploaded. *)
Theorem sign_rejects_hash_mismatch_and_bad_compile (W : World) (ctl : Controller)
    (msg : Boc) (tmpDir : string) (st st2 : State) (cell : Cell)
    (v : ValidatedMessage) (content : string) (json : SourceItem) :
  fromBoc0 msg = Ok cell ->
  validated W ctl cell st = (Ok v, st2) ->
  ipfs st2 !! ipfsPointer v = Some content ->
  JSON_parse W content = Ok json ->
  (si_hash json ≠ codeCellHash v ->
   exists st', sign W ctl msg tmpDir st = (Err CodeHashMismatch, st') /\ inert st st')
  /\ (forall srcs st4,
        si_hash json = codeCellHash v ->
        mapM (fetchSource W tmpDir) (si_sources json) (afterRead (ipfsPointer v) st2)
          = (Ok srcs, st4) ->
        let cr := compiler_verify W (si_compiler json) (disk st4)
                    (sourceToVerify W json srcs tmpDir (senderAddress v)) in
        result cr ≠ similar ->
        exists st', sign W ctl msg tmpDir st = (Err (InvalidCompilationResult (result cr)), st')
                    /\ inert st st').
Proof.
  intros Hcell Hvalid Hread Hparse.
  pose proof (validated_inert W ctl cell st _ _ Hvalid) as Hinert2.
  split.
  - intros Hneq. exists (afterRead (ipfsPointer v) st2). split.
    + rewrite (sign_validated W ctl msg tmpDir st cell Hcell), Hvalid.
      rewrite (recompileAndSign_read W ctl cell tmpDir v st2 content Hread), Hparse.
      by rewrite bool_decide_eq_true_2.
    + etransitivity; [exact Hinert2 | apply afterRead_inert].
  - intros srcs st4 Heq Hfetch cr Hres.
    eexists. split.
    + rewrite (sign_validated W ctl msg tmpDir st cell Hcell), Hvalid.
      rewrite (recompileAndSign_read W ctl cell tmpDir v st2 content Hread), Hparse.
      rewrite bool_decide_eq_false_2 by (intros Hne; by apply Hne).
      rewrite Hfetch. simpl. fold cr. by rewrite bool_decide_eq_true_2.
    + etransitivity; [exact Hinert2|].
      etransitivity; [apply afterRead_inert|].
      etransitivity; [eapply fetchSources_inert, Hfetch|].
      split; [done|]. simpl. rewrite filter_app. simpl. by rewrite app_nil_r.
Qed.

Section Append.

Context (W : World).




End Append.


(** ** Order of the steps of [sign] *)

Section Order.

Context (W : World).

Lemma appendOwnSignature_extends P ctl cell :
  (forall h pk, P (EvSign h pk) = true) ->
  runs (extendsWith P) (appendOwnSignature W ctl cell).
Proof.
  intros HP. unfold appendOwnSignature, signatureCell. runs_auto.
  apply emit_extends, HP.
Qed.

Lemma recompileAndSign_after_validation ctl cell tmpDir v :
  runs (extendsWith notVerifySignature) (recompileAndSign W ctl cell tmpDir v).
Proof.
  unfold recompileAndSign. runs_auto.
  - unfold fetchSource. runs_auto.
  - by apply appendOwnSignature_extends.
Qed.

Lemma validated_trace ctl cell st r st2 :
  validated W ctl cell st = (r, st2) ->
  exists evs, trace st2 = trace st ++ evs
              /\ forallb beforeFetch evs = true /\ forallb notCompile evs = true.
Proof.
  intros Hv. apply validated_extends in Hv as [(evs & Htr & Hevs) _].
  exists (EvGetVerifierConfig (verifierId (config ctl))
            (sourcesRegistryAddress (config ctl)) :: evs).
  simpl in Htr. rewrite Htr, <- app_assoc. split; [done|]. simpl.
  rewrite forallb_forall in Hevs.
  split; apply forallb_forall; intros e He; apply Hevs in He; by destruct e.
Qed.

Lemma sign_hash_mismatch ctl msg tmpDir st st2 cell v content json :
  fromBoc0 msg = Ok cell ->
  validated W ctl cell st = (Ok v, st2) ->
  ipfs st2 !! ipfsPointer v = Some content ->
  JSON_parse W content = Ok json ->
  si_hash json ≠ codeCellHash v ->
  sign W ctl msg tmpDir st = (Err CodeHashMismatch, afterRead (ipfsPointer v) st2).
Proof.
  intros Hcell Hvalid Hread Hparse Hneq.
  rewrite (sign_validated W ctl msg tmpDir st cell Hcell), Hvalid.
  rewrite (recompileAndSign_read W ctl cell tmpDir v st2 content Hread), Hparse.
  by rewrite bool_decide_eq_true_2.
Qed.

Lemma sign_bad_compile ctl msg tmpDir st st2 cell v content json srcs st4 :
  fromBoc0 msg = Ok cell ->
  validated W ctl cell st = (Ok v, st2) ->
  ipfs st2 !! ipfsPointer v = Some content ->
  JSON_parse W content = Ok json ->
  si_hash json = codeCellHash v ->
  mapM (fetchSource W tmpDir) (si_sources json) (afterRead (ipfsPointer v) st2)
    = (Ok srcs, st4) ->
  let p := sourceToVerify W json srcs tmpDir (senderAddress v) in
  let cr := compiler_verify W (si_compiler json) (disk st4) p in
  result cr ≠ similar ->
  sign W ctl msg tmpDir st
  = (Err (InvalidCompilationResult (result cr)),
     mkState (ipfs st4) (disk st4) (trace st4 ++ [EvCompile (si_compiler json) p])).
Proof.
  intros Hcell Hvalid Hread Hparse Heq Hfetch p cr Hres.
  rewrite (sign_validated W ctl msg tmpDir st cell Hcell), Hvalid.
  rewrite (recompileAndSign_read W ctl cell tmpDir v st2 content Hread), Hparse.
  rewrite bool_decide_eq_false_2 by (intros Hne; by apply Hne).
  rewrite Hfetch. simpl. fold p cr. by rewrite bool_decide_eq_true_2.
Qed.

End Order.

(** C1, as amended.  In [sign] the message, signature chain included, is
    validated before the SourceRecord is fetched and before anything is
    recompiled:
    - in every run the trace splits into a first part without storage read
      and without compilation, and a second part without signature check;
    - a message that validation rejects makes [sign] fail with the
      validator's error, storage unread and compiler not called;
    - once validation has passed, a stored hash different from the
      message's code hash fails with [CodeHashMismatch] before any
      compilation;
    - and a recompilation whose result is not "similar" fails with
      [InvalidCompilationResult], whatever hash it reports. *)
Theorem sign_validates_before_recompiling (W : World) (ctl : Controller)
    (msg : Boc) (tmpDir : string) (st : State) :
  (forall r st',
     sign W ctl msg tmpDir st = (r, st') ->
     exists evs1 evs2,
       trace st' = trace st ++ evs1 ++ evs2
       /\ forallb beforeFetch evs1 = true
       /\ forallb notVerifySignature evs2 = true)
  /\ (forall cell e st2,
        fromBoc0 msg = Ok cell ->
        validated W ctl cell st = (Err e, st2) ->
        sign W ctl msg tmpDir st = (Err e, st2)
        /\ exists evs, trace st2 = trace st ++ evs /\ forallb beforeFetch evs = true)
  /\ (forall cell v st2 content json,
        fromBoc0 msg = Ok cell ->
        validated W ctl cell st = (Ok v, st2) ->
        ipfs st2 !! ipfsPointer v = Some content ->
        JSON_parse W content = Ok json ->
        si_hash json ≠ codeCellHash v ->
        exists st' evs,
          sign W ctl msg tmpDir st = (Err CodeHashMismatch, st')
          /\ trace st' = trace st ++ evs /\ forallb notCompile evs = true)
  /\ (forall cell v st2 content json srcs st4,
        fromBoc0 msg = Ok cell ->
        validated W ctl cell st = (Ok v, st2) ->
        ipfs st2 !! ipfsPointer v = Some content ->
        JSON_parse W content = Ok json ->
        si_hash json = codeCellHash v ->
        mapM (fetchSource W tmpDir) (si_sources json) (afterRead (ipfsPointer v) st2)
          = (Ok srcs, st4) ->
        let cr := compiler_verify W (si_compiler json) (disk st4)
                    (sourceToVerify W json srcs tmpDir (senderAddress v)) in
        result cr ≠ similar ->
        fst (sign W ctl msg tmpDir st) = Err (InvalidCompilationResult (result cr))).
Proof.
  split; [|split; [|split]].
  - intros r st' Hrun. destruct (fromBoc0_cases msg) as [Hbad | [cell Hcell]].
    { rewrite (sign_malformed W ctl msg tmpDir st Hbad) in Hrun. inversion Hrun; subst.
      exists [], []. by rewrite !app_nil_r. }
    rewrite (sign_validated W ctl msg tmpDir st cell Hcell) in Hrun.
    destruct (validated W ctl cell st) as [[v|e] st2] eqn:Hvalid.
    + apply validated_trace in Hvalid as (evs1 & Htr1 & Hev1 & _).
      apply recompileAndSign_after_validation in Hrun as (evs2 & Htr2 & Hev2).
      exists evs1, evs2. rewrite Htr2, Htr1, <- app_assoc. done.
    + inversion Hrun; subst r st'.
      apply validated_trace in Hvalid as (evs1 & Htr1 & Hev1 & _).
      exists evs1, []. by rewrite app_nil_r.
  - intros cell e st2 Hcell Hvalid. split.
    + by rewrite (sign_validated W ctl msg tmpDir st cell Hcell), Hvalid.
    + apply validated_trace in Hvalid as (evs & Htr & Hev & _). eauto.
  - intros cell v st2 content json Hcell Hvalid Hread Hparse Hneq.
    exists (afterRead (ipfsPointer v) st2).
    apply validated_trace in Hvalid as Htrace. destruct Htrace as (evs & Htr & _ & Hev).
    exists (evs ++ [EvIpfsRead (Some (ipfsPointer v))]). split.
    + by eapply sign_hash_mismatch.
    + simpl. rewrite Htr, <- app_assoc. split; [done|].
      rewrite forallb_app, Hev. done.
  - intros cell v st2 content json srcs st4 Hcell Hvalid Hread Hparse Heq Hfetch cr Hres.
    by erewrite sign_bad_compile.
Qed.

(** ** The replayed compiler settings *)

Lemma substring_whole s : String.substring 0 (String.length s) s = s.
Proof. induction s as [|c s IH]; simpl; [done | by rewrite IH]. Qed.

Lemma replace_leading_func_strips rest : replace_leading_func ("func" +:+ rest) = rest.
Proof.
  change ("func" +:+ rest) with (String "f" (String "u" (String "n" (String "c" rest)))).
  unfold replace_leading_func. simpl. rewrite Nat.sub_0_r.
  destruct rest; simpl; [done | by rewrite substring_whole].
Qed.

Lemma replace_leading_func_keeps cl :
  String.prefix "func" cl = false -> replace_leading_func cl = cl.
Proof. intros H. unfold replace_leading_func. by rewrite H. Qed.

Lemma replaySettings_commandLine stored :
  replaySettings stored !! "commandLine"
  = replace_leading_func <$> (default ∅ stored !! "commandLine").
Proof.
  unfold replaySettings. destruct (default ∅ stored !! "commandLine") as [cl|] eqn:Hcl.
  - by rewrite lookup_insert_eq.
  - by rewrite Hcl.
Qed.

Lemma replaySettings_other stored k :
  k ≠ "commandLine" -> replaySettings stored !! k = default ∅ stored !! k.
Proof.
  intros Hk. unfold replaySettings.
  destruct (default ∅ stored !! "commandLine") as [cl|]; [|done].
  by rewrite lookup_insert_ne.
Qed.

(** C9, as amended.  When [sign] replays the stored settings, the command
    line handed to the compiler is the stored one with a leading "func"
    removed, and every other setting is the stored one; this is done for
    the record of any compiler, not only for func records.  Only "func" is
    removed: a command line that does not start with it is replayed as it
    is stored. *)
Theorem sign_replays_commandLine_without_leading_func (W : World) (ctl : Controller)
    (msg : Boc) (tmpDir : string) (st st2 st4 : State) (cell : Cell)
    (v : ValidatedMessage) (content : string) (json : SourceItem)
    (srcs : list SourceEntry) :
  fromBoc0 msg = Ok cell ->
  validated W ctl cell st = (Ok v, st2) ->
  ipfs st2 !! ipfsPointer v = Some content ->
  JSON_parse W content = Ok json ->
  si_hash json = codeCellHash v ->
  mapM (fetchSource W tmpDir) (si_sources json) (afterRead (ipfsPointer v) st2)
    = (Ok srcs, st4) ->
  let stored := default ∅ (si_compilerSettings json) in
  let p := sourceToVerify W json srcs tmpDir (senderAddress v) in
  (exists r st' evs,
     sign W ctl msg tmpDir st = (r, st')
     /\ trace st' = trace st4 ++ EvCompile (si_compiler json) p :: evs
     /\ forallb notCompile evs = true)
  /\ svp_compiler p = si_compiler json
  /\ svp_compilerSettings p !! "commandLine"
     = replace_leading_func <$> (stored !! "commandLine")
  /\ (forall k, k ≠ "commandLine" -> svp_compilerSettings p !! k = stored !! k)
  /\ (forall rest, replace_leading_func ("func" +:+ rest) = rest)
  /\ (forall cl, String.prefix "func" cl = false -> replace_leading_func cl = cl).
Proof.
  intros Hcell Hvalid Hread Hparse Heq Hfetch stored p.
  split; [|repeat split].
  - rewrite (sign_validated W ctl msg tmpDir st cell Hcell), Hvalid.
    rewrite (recompileAndSign_read W ctl cell tmpDir v st2 content Hread), Hparse.
    rewrite bool_decide_eq_false_2 by (intros Hne; by apply Hne).
    rewrite Hfetch. simpl. fold p.
    destruct (bool_decide _).
    + eexists _, _, []. split; [reflexivity|]. done.
    + destruct (appendOwnSignature W ctl cell _) as [r st'] eqn:Happend.
      apply (appendOwnSignature_extends W notCompile) in Happend as (evs & Htr & Hevs);
        [|done].
      exists r, st', evs. simpl in Htr. rewrite Htr, <- app_assoc. done.
  - apply replaySettings_commandLine.
  - intros k Hk. by apply replaySettings_other.
  - apply replace_leading_func_strips.
  - apply replace_leading_func_keeps.
Qed.

(** ** The multisig validator *)

Section Multisig.

Context (W : World).

Lemma validateSignatureCell_quorum head msgHash kp cfg st :
  quorum cfg <= 1 ->
  validateSignatureCell W head msgHash kp cfg st = (Err QuorumTooSmall, st).
Proof.
  intros Hq. unfold validateSignatureCell. by rewrite decide_True.
Qed.

Lemma validated_envelope ctl cell st v body chain :
  validateEnvelope W cell (VERIFIER_SHA256 ctl) (sourcesRegistryAddress (config ctl))
    = Ok (v, body, chain) ->
  validated W ctl cell st =
    match validateSignatureCell W chain (cellHash W body) (keypair ctl)
            (getVerifierConfig W (verifierId (config ctl))
               (sourcesRegistryAddress (config ctl)))
            (afterConfigQuery ctl st) with
    | (Ok _, st2) => (Ok v, st2)
    | (Err e, st2) => (Err e, st2)
    end.
Proof.
  intros Henv. unfold validated, validateMessageCell. rewrite bind_run. unfold lift at 1.
  rewrite Henv. rewrite bind_run. by destruct (validateSignatureCell _ _ _ _ _ _) as [[]].
Qed.




End Multisig.

(** C7. With a quorum of 1 or less the multisig validator fails with
    [QuorumTooSmall] whatever the chain holds, and it does so before
    looking at any signature: the state, trace included, is unchanged.  A
    [sign] whose message passes the envelope checks fails in that way. *)
Theorem quorum_too_small_before_any_signature (W : World) :
  (forall head msgHash kp cfg st,
     quorum cfg <= 1 ->
     validateSignatureCell W head msgHash kp cfg st = (Err QuorumTooSmall, st))
  /\ (forall ctl msg tmpDir st cell v body chain,
        quorum (getVerifierConfig W (verifierId (config ctl))
                  (sourcesRegistryAddress (config ctl))) <= 1 ->
        fromBoc0 msg = Ok cell ->
        validateEnvelope W cell (VERIFIER_SHA256 ctl) (sourcesRegistryAddress (config ctl))
          = Ok (v, body, chain) ->
        sign W ctl msg tmpDir st = (Err QuorumTooSmall, afterConfigQuery ctl st)).
Proof.
  split.
  - apply validateSignatureCell_quorum.
  - intros ctl msg tmpDir st cell v body chain Hq Hcell Henv.
    rewrite (sign_validated W ctl msg tmpDir st cell Hcell).
    rewrite (validated_envelope W ctl cell st v body chain Henv).
    by rewrite validateSignatureCell_quorum.
Qed.



(** * Concrete runs *)

Import Stub.

(** The scenario of the test "Signs a source": A proposes, B and C cosign,
    and a fourth attempt is refused. *)
Example three_verifiers_scenario :
  let runA := addSource wSimilar (controllerOf "A") payload emptyState in
  let msgA := default [] (msgCell (valueOf (onlyCompileResult (similarResult ∅ payload)) runA)) in
  let runB := sign wSimilar (controllerOf "B") msgA "" (snd runA) in
  let runC := sign wSimilar (controllerOf "C") (valueOf [] runB) "" (snd runB) in
  let runD := sign wSimilar (controllerOf "A") (valueOf [] runC) "" (snd runC) in
  (length ∘ chainPayloads <$> (refs (rootOf msgA) !! 1%nat)) = Some 1%nat
  /\ (length ∘ chainPayloads <$> (refs (rootOf (valueOf [] runB)) !! 1%nat)) = Some 2%nat
  /\ (length ∘ chainPayloads <$> (refs (rootOf (valueOf [] runC)) !! 1%nat)) = Some 3%nat
  /\ fst runD = Err TooManySignatures.
Proof. vm_compute. repeat split. Qed.

(** The validator on the cells of the repository's tests ("Invalid wrapper
    cell" and "Invalid signatures"), with the error each test expects. *)
Example validation_agrees_with_the_tests :
  let K := "K" in let K2 := "L" in let K3 := "M" in
  let node signed secret := mkCell (sigNode signed secret) [] in
  let onTop secret next := mkCell (sigNode body secret) [next] in
  let run msg := fst (sign wSimilar (controllerOf "A") msg "" (mkState ∅ ∅ [])) in
  (* invalid op *)
  run (wrapper (bitsOfUint 32 1 ++ bitsOfUint 64 0)) = Err InvalidOperation
  (* no query id *)
  /\ run (wrapper (bitsOfUint 32 (FORWARD_MESSAGE_OP wSimilar))) = Err InvalidCell
  (* no refs, empty cell *)
  /\ run [mkCell (bitsOfUint 32 1 ++ bitsOfUint 64 0) []] = Err InvalidCell
  /\ run [emptyCell] = Err InvalidCell
  (* Empty, Non-Empty *)
  /\ signOutcome wSimilar emptyCell = Err InvalidSignatureCell
  /\ signOutcome wSimilar (mkCell [false] []) = Err InvalidSignatureCell
  (* Invalid signed cell hash *)
  /\ signOutcome wSimilar (node emptyCell K) = Err InvalidSignature
  (* Multiple signatures, one invalid *)
  /\ signOutcome (wConfig 3 [keyOf "A"; keyOf K; keyOf K2]) (onTop K2 (node emptyCell K))
     = Err InvalidSignature
  (* Sig cell contains more than one ref *)
  /\ signOutcome (wConfig 3 [keyOf "A"; keyOf K; keyOf K2])
       (mkCell (sigNode body K2) [node body K; node body K])
     = Err InvalidSignatureCell
  (* Already signed by own *)
  /\ signOutcome (wConfig 2 [keyOf "A"; keyOf K]) (node body "A") = Err AlreadySignedBySelf
  (* Sig does not belong to verifier id *)
  /\ signOutcome (wConfig 2 [keyOf K; keyOf K2; keyOf K3]) (node body K)
     = Err NotInMultisigConfig
  (* Only one in quorum *)
  /\ signOutcome (wConfig 1 [keyOf "A"]) (node body K) = Err QuorumTooSmall
  (* More signatures than need *)
  /\ signOutcome (wConfig 2 [keyOf "A"; keyOf K; keyOf K2]) (onTop K (node body K2))
     = Err TooManySignatures
  (* Signature appears more than once *)
  /\ signOutcome (wConfig 3 [keyOf "A"; keyOf K; keyOf K2]) (onTop K (node body K))
     = Err DuplicateSignature.
Proof. vm_compute. repeat split. Qed.

(** C1, counterexample.  With a valid chain and a stored hash equal to the
    message's code hash, a recompilation that is not "similar" and reports
    another hash fails with [InvalidCompilationResult], not with
    [CodeHashMismatch]; and with a chain whose signature does not verify,
    [sign] fails with [InvalidSignature] although the stored hash differs
    from the code hash, the store never read and the compiler never
    called. *)
Lemma sign_recompiled_hash_differs_counterexample :
  let recompiled := notSimilarResult payload in
  let valid := sign wNotSimilar (controllerOf "B") signedByA "" store in
  let invalid := sign wTampered (controllerOf "B") badlySignedByA "" store in
  hash recompiled ≠ Some (si_hash (storedRecord codeHash None func))
  /\ fst valid = Err (InvalidCompilationResult not_similar)
  /\ fst valid ≠ Err CodeHashMismatch
  /\ fst invalid = Err InvalidSignature
  /\ fst invalid ≠ Err CodeHashMismatch
  /\ forallb beforeFetch (trace (snd invalid)) = true.
Proof. vm_compute. repeat split; discriminate. Qed.

(** C1, the amended statement at a message whose chain does not verify. *)
Lemma sign_validates_before_recompiling_witness :
  let ctl := controllerOf "B" in
  let st2 := snd (validated wTampered ctl (rootOf badlySignedByA) store) in
  sign wTampered ctl badlySignedByA "" store = (Err InvalidSignature, st2)
  /\ exists evs, trace st2 = trace store ++ evs /\ forallb beforeFetch evs = true.
Proof.
  intros ctl st2.
  destruct (sign_validates_before_recompiling wTampered ctl badlySignedByA "" store)
    as (_ & Hrejected & _).
  apply (Hrejected (rootOf badlySignedByA) InvalidSignature st2).
  - reflexivity.
  - vm_compute. reflexivity.
Defined.

(** C2 at a message with a valid chain whose sources no longer compile to
    the attested code. *)
Lemma sign_rejects_hash_mismatch_and_bad_compile_witness :
  exists st',
    sign wNotSimilar (controllerOf "B") signedByA "" store
    = (Err (InvalidCompilationResult not_similar), st')
    /\ inert store st'.
Proof.
  set (ctl := controllerOf "B").
  set (run := validated wNotSimilar ctl (rootOf signedByA) store).
  destruct (sign_rejects_hash_mismatch_and_bad_compile wNotSimilar ctl signedByA ""
              store (snd run) (rootOf signedByA) (valueOf noMessage run) "doc"
              (storedRecord codeHash None func))
    as [_ Hcompile].
  - reflexivity.
  - vm_compute. reflexivity.
  - vm_compute. reflexivity.
  - reflexivity.
  - apply (Hcompile [] (afterRead "someLink" (snd run))).
    + vm_compute. reflexivity.
    + vm_compute. reflexivity.
    + vm_compute. discriminate.
Defined.

(** C3 at a compiler that answers "not_similar". *)
Lemma addSource_not_similar_is_inert_witness :
  exists r st',
    addSource wNotSimilar (controllerOf "A") payload emptyState = (Ok r, st')
    /\ compileResult r = notSimilarResult payload
    /\ sig r = None /\ ipfsLink r = None /\ msgCell r = None
    /\ inert emptyState st'
    /\ trace st' = [EvCompile func payload].
Proof.
  apply (addSource_not_similar_is_inert wNotSimilar (controllerOf "A") payload emptyState).
  vm_compute. discriminate.
Defined.

(** C4 at a chain of two nodes, and at a node with two references. *)
Lemma addSignatureCell_appends_at_tail_witness :
  addSignatureCell (mkCell [true] [mkCell [false] []]) (mkCell [true; true] [])
  = Ok (mkCell [true] [mkCell [false] [mkCell [true; true] []]])
  /\ addSignatureCell (mkCell [true] [mkCell [false] [emptyCell; emptyCell]]) emptyCell
     = Err TooManyReferences.
Proof.
  destruct addSignatureCell_appends_at_tail as (Happend & _ & Hsecond). split.
  - apply (Happend [[true]] [false] (mkCell [true; true] [])).
  - apply (Hsecond _ (mkCell [false] [emptyCell; emptyCell])).
    + apply onSpine_next, onSpine_here.
    + simpl. lia.
Defined.




(** C7 at a config with quorum 1, whatever the chain. *)
Lemma quorum_too_small_before_any_signature_witness :
  let ctl := controllerOf "A" in
  sign wQuorum1 ctl signedByABC "" store = (Err QuorumTooSmall, afterConfigQuery ctl store)
  /\ sign wQuorum1 ctl badlySignedByA "" store
     = (Err QuorumTooSmall, afterConfigQuery ctl store).
Proof.
  intros ctl. destruct (quorum_too_small_before_any_signature wQuorum1) as [_ Hsign].
  set (good := validateEnvelope wQuorum1 (rootOf signedByABC) (VERIFIER_SHA256 ctl)
                 (sourcesRegistryAddress (config ctl))).
  set (bad := validateEnvelope wQuorum1 (rootOf badlySignedByA) (VERIFIER_SHA256 ctl)
                (sourcesRegistryAddress (config ctl))).
  split.
  - apply (Hsign ctl signedByABC "" store (rootOf signedByABC)
             (mkValidatedMessage "someLink" codeHash
                (bitsOfUint 267 (uintOfBits (bitsOfString "sender"))) 42)
             body
             (linkedFrom [sigNode body "A"; sigNode body "B"] (mkCell (sigNode body "C") []))).
    + vm_compute. discriminate.
    + reflexivity.
    + vm_compute. reflexivity.
  - apply (Hsign ctl badlySignedByA "" store (rootOf badlySignedByA)
             (mkValidatedMessage "someLink" codeHash
                (bitsOfUint 267 (uintOfBits (bitsOfString "sender"))) 42)
             body (mkCell (sigNode emptyCell "A") [])).
    + vm_compute. discriminate.
    + reflexivity.
    + vm_compute. reflexivity.
Defined.



(** C9, counterexample.  The stored record names the fift compiler and
    its command line starts with "func": [sign] hands the fift compiler
    the command line without that prefix. *)
Lemma sign_strips_func_for_fift_record_counterexample :
  let record := storedRecord codeHash (Some {["commandLine" := "func -o out.fif"]}) fift in
  let run := sign wFift (controllerOf "B") signedByA "" store in
  let p := sourceToVerify wFift record [] ""
             (bitsOfUint 267 (uintOfBits (bitsOfString "sender"))) in
  JSON_parse wFift "doc" = Ok record
  /\ si_compiler record = fift
  /\ (si_compilerSettings record ≫= (fun m => m !! "commandLine")) = Some "func -o out.fif"
  /\ trace (snd run) !! 3%nat = Some (EvCompile fift p)
  /\ svp_compilerSettings p !! "commandLine" = Some " -o out.fif".
Proof. vm_compute. repeat split. Qed.

(** C9, the amended statement at a func record stored with the command
    line "func -SPA". *)
Lemma sign_replays_commandLine_without_leading_func_witness :
  let ctl := controllerOf "B" in
  let record := storedRecord codeHash
                  (Some {["commandLine" := "func -SPA"; "funcVersion" := "0.4.0"]}) func in
  let p := sourceToVerify wFunc record [] ""
             (bitsOfUint 267 (uintOfBits (bitsOfString "sender"))) in
  (exists r st' evs,
     sign wFunc ctl signedByA "" store = (r, st')
     /\ trace st' = trace (afterRead "someLink" (snd (validated wFunc ctl (rootOf signedByA) store)))
                    ++ EvCompile func p :: evs
     /\ forallb notCompile evs = true)
  /\ svp_compilerSettings p !! "commandLine" = Some " -SPA"
  /\ svp_compilerSettings p !! "funcVersion" = Some "0.4.0".
Proof.
  intros ctl record p.
  set (run := validated wFunc ctl (rootOf signedByA) store).
  destruct (sign_replays_commandLine_without_leading_func wFunc ctl signedByA "" store
              (snd run) (afterRead "someLink" (snd run)) (rootOf signedByA)
              (valueOf noMessage run) "doc" record [])
    as (Hrun & _ & Hcl & Hother & _).
  - reflexivity.
  - vm_compute. reflexivity.
  - vm_compute. reflexivity.
  - reflexivity.
  - vm_compute. reflexivity.
  - vm_compute. reflexivity.
  - split; [exact Hrun|]. split.
    + etransitivity; [exact Hcl|]. vm_compute. reflexivity.
    + etransitivity; [apply Hother; discriminate|]. vm_compute. reflexivity.
Defined.

(** C10, counterexample.  The compile result is "similar", carries a hash
    and an [error] that is the empty string, which is not null:
    [addSource] goes on, uploads, signs and returns a message. *)
Lemma addSource_empty_error_counterexample :
  let cr := emptyErrorResult payload in
  let run := addSource wEmptyError (controllerOf "A") payload emptyState in
  error cr = Some ""
  /\ error cr ≠ None
  /\ result cr = similar
  /\ (exists r, fst run = Ok r /\ compileResult r = cr
                /\ is_Some (sig r) /\ is_Some (ipfsLink r) /\ is_Some (msgCell r))
  /\ ~ inert emptyState (snd run).
Proof.
  intros cr run. repeat split; try discriminate.
  - eexists. split; [vm_compute; reflexivity|]. vm_compute. repeat split; eauto.
  - intros [_ Hpub]. vm_compute in Hpub. discriminate.
Qed.

(** C10, the amended statement at a "similar" result that carries an
    error message. *)
Lemma addSource_error_or_missing_hash_is_inert_witness :
  exists r st',
    addSource wFailed (controllerOf "A") payload emptyState = (Ok r, st')
    /\ compileResult r = failedResult payload
    /\ sig r = None /\ ipfsLink r = None /\ msgCell r = None
    /\ inert emptyState st'
    /\ trace st' = [EvCompile func payload].
Proof.
  apply (addSource_error_or_missing_hash_is_inert wFailed (controllerOf "A") payload
           emptyState).
  left. reflexivity.
Defined.

(** * Further properties of the controller *)

(** ** [addSignatureCell] *)

Lemma addSignatureCell_err_cases node sigCell e :
  addSignatureCell node sigCell = Err e ->
  e = TooManyReferences /\ exists v, onSpine v node /\ (2 <= length (refs v))%nat.
Proof.
  induction node as [b rs IH] using Cell_ind_refs. intros Herr.
  destruct rs as [|child [|second rest]]; simpl in Herr.
  - discriminate.
  - inversion IH as [|? ? Hchild _]; subst.
    destruct (addSignatureCell child sigCell) as [u|e'] eqn:Hu; simpl in Herr;
      [discriminate|].
    inversion Herr; subst e'. destruct (Hchild eq_refl) as (-> & v & Hv & Hrefs).
    split; [done|]. exists v. split; [by apply onSpine_next | done].
  - inversion Herr; subst. split; [done|].
    exists (mkCell b (child :: second :: rest)). split; [apply onSpine_here|simpl; lia].
Qed.

Lemma addSignatureCell_under_prefix qs c s :
  addSignatureCell (linkedFrom qs c) s = linkedFrom qs <$> addSignatureCell c s.
Proof.
  induction qs as [|q qs IH]; simpl.
  - by destruct (addSignatureCell c s).
  - rewrite IH. by destruct (addSignatureCell c s).
Qed.

Lemma onSpine_linkedFrom ps c : onSpine c (linkedFrom ps c).
Proof.
  induction ps as [|p ps IH]; simpl; [apply onSpine_here | by apply onSpine_next].
Qed.

(** X1. [addSignatureCell] has one way to fail: it fails with
    [TooManyReferences] exactly when some node reached by first references
    carries two references or more, and with no other error. *)
Theorem addSignatureCell_fails_exactly_on_second_ref (node sigCell : Cell) :
  (forall e, addSignatureCell node sigCell = Err e -> e = TooManyReferences)
  /\ (addSignatureCell node sigCell = Err TooManyReferences
      <-> exists v, onSpine v node /\ (2 <= length (refs v))%nat).
Proof.
  split; [|split].
  - intros e Herr. by apply addSignatureCell_err_cases in Herr as [-> _].
  - intros Herr. by apply addSignatureCell_err_cases in Herr as [_ Hv].
  - intros (v & Hv & Hrefs). by eapply addSignatureCell_second_ref.
Qed.

(** X2. A successful [addSignatureCell] keeps the bits of the head, gives
    the head exactly one reference, and the new node, with everything
    below it, is reached from the head by first references: the payloads
    of the result are those of the old chain followed by those of the new
    node's own chain. *)
Theorem addSignatureCell_result_shape (node sigCell r : Cell) :
  addSignatureCell node sigCell = Ok r ->
  bits r = bits node
  /\ length (refs r) = 1%nat
  /\ onSpine sigCell r
  /\ chainPayloads r = chainPayloads node ++ chainPayloads sigCell.
Proof.
  intros Hr. pose proof (addSignatureCell_chainPayloads _ _ _ Hr) as Hpay.
  apply addSignatureCell_ok_inv in Hr as (ps & t & -> & ->).
  repeat split; [| |apply onSpine_linkedFrom|exact Hpay]; by destruct ps.
Qed.

(** X3. Appending composes: once [s1] has been appended to a chain,
    appending [s2] to the result is appending to the chain the node
    obtained by appending [s2] to [s1], and it fails when that fails. *)
Theorem addSignatureCell_twice (node s1 s2 r1 : Cell) :
  addSignatureCell node s1 = Ok r1 ->
  addSignatureCell r1 s2 = (s12 ← addSignatureCell s1 s2; addSignatureCell node s12).
Proof.
  intros Hr1. apply addSignatureCell_ok_inv in Hr1 as (ps & t & -> & ->).
  rewrite addSignatureCell_under_prefix.
  destruct (addSignatureCell s1 s2) as [s12|e]; simpl; [|done].
  by rewrite addSignatureCell_linkedFrom.
Qed.

(** ** Lines 212-219 of [sign]: rebuilding the root *)

(** X4. What the last lines of [sign] make of a root, by the number of its
    references.  Without a reference the first [loadRef] fails and nothing
    is signed; with one, the payload is signed and the second [loadRef]
    fails; with a payload, a chain head and up to two further references,
    the payload is signed first and then either the chain is refused, or
    the new root has the bits of the old one and, as references, the
    further ones, then the payload, then the updated chain. *)
Theorem appendOwnSignature_by_references (W : World) (ctl : Controller) (b : Bits)
    (st : State) :
  appendOwnSignature W ctl (mkCell b []) st = (Err SliceUnderflow, st)
  /\ (forall payload,
        appendOwnSignature W ctl (mkCell b [payload]) st
        = (Err SliceUnderflow, afterSigning W ctl payload st))
  /\ (forall payload head extra,
        (length extra <= 2)%nat ->
        appendOwnSignature W ctl (mkCell b (payload :: head :: extra)) st
        = match addSignatureCell head (mkCell (ownSignaturePayload W ctl payload) []) with
          | Ok updated =>
              (Ok (toBoc (mkCell b (extra ++ [payload; updated]))),
               afterSigning W ctl payload st)
          | Err e => (Err e, afterSigning W ctl payload st)
          end).
Proof.
  split; [reflexivity|]. split; [reflexivity|].
  intros payload head extra Hextra.
  unfold afterSigning, ownSignaturePayload.
  unfold appendOwnSignature, signatureCell, lift, emit, mbind, mret, M_bind, M_ret.
  simpl. destruct (addSignatureCell head _) as [updated|e]; [|reflexivity].
  unfold storeRef. simpl.
  rewrite decide_False by lia. simpl.
  rewrite decide_False by (rewrite length_app; simpl; lia). simpl.
  by rewrite <- app_assoc.
Qed.

(** ** [addSource]: the runs that get past the compile result *)

Section Publish.

Context (W : World).

(** The three ways [publishAndSign] can end: the upload of the sources
    fails; the payload cannot be built, after both uploads; or everything
    is uploaded and signed. *)
Lemma publishAndSign_cases ctl vp cr st r st' :
  publishAndSign W ctl vp cr st = (r, st') ->
  exists files,
    (r = Err StorageFailure /\ trace st' = trace st ++ [EvIpfsWrite files])
    \/ (exists contents line e,
          r = Err e
          /\ trace st' = trace st ++ [EvIpfsWrite files; EvIpfsWriteFromContent contents;
                                      EvLog line])
    \/ (exists contents line h vr,
          r = Ok vr
          /\ trace st' = trace st ++ [EvIpfsWrite files; EvIpfsWriteFromContent contents;
                                      EvLog line; EvSign h (publicKey (keypair ctl))]
          /\ compileResult vr = cr /\ is_Some (sig vr)
          /\ ipfsLink vr = Some line /\ is_Some (msgCell vr)).
Proof.
  unfold publishAndSign. intros Hrun. eexists.
  rewrite bind_run in Hrun. unfold ipfs_write at 1 in Hrun.
  destruct (mapM _ _) as [contents|].
  2:{ inversion Hrun; subst. left. split; reflexivity. }
  right. rewrite bind_run in Hrun. unfold ipfs_writeFromContent at 1 in Hrun.
  simpl in Hrun. rewrite !bind_run in Hrun. simpl in Hrun.
  destruct (cellToSign _ _ _ _ _ _ _) as [msgToSign|e].
  - right. inversion Hrun; subst. simpl. do 4 eexists.
    split; [reflexivity|]. rewrite <- !app_assoc. simpl.
    split; [reflexivity|]. repeat split; eauto.
  - left. inversion Hrun; subst. simpl. do 3 eexists.
    split; [reflexivity|]. rewrite <- !app_assoc. reflexivity.
Qed.

(** Every run of [addSource] stops after compiling, reports the proof as
    deployed, or goes on to [publishAndSign], with the chain reader asked
    first unless reverification is allowed. *)
Lemma addSource_cases ctl vp st r st' :
  addSource W ctl vp st = (r, st') ->
  let cr := compiler_verify W (svp_compiler vp) (disk st) vp in
  let answer := isProofDeployed W (svp_knownContractHash vp) (verifierId (config ctl)) in
  let query := EvIsProofDeployed (svp_knownContractHash vp) (verifierId (config ctl))
                 answer in
  (stopsAfterCompile cr = true /\ r = Ok (onlyCompileResult cr) /\ st' = afterCompile vp st)
  \/ (stopsAfterCompile cr = false /\ allowReverification (config ctl) = false
      /\ answer = Some true
      /\ r = Ok (onlyCompileResult (alreadyDeployed cr))
      /\ trace st' = trace st ++ [EvCompile (svp_compiler vp) vp; query])
  \/ (stopsAfterCompile cr = false
      /\ exists pre st1,
           (allowReverification (config ctl) = true /\ pre = []
            \/ allowReverification (config ctl) = false /\ answer ≠ Some true
               /\ pre = [query])
           /\ trace st1 = trace st ++ EvCompile (svp_compiler vp) vp :: pre
           /\ publishAndSign W ctl vp cr st1 = (r, st')).
Proof.
  intros Hrun cr answer query.
  destruct (stopsAfterCompile cr) eqn:Hstop.
  { left. pose proof (addSource_stops_after_compile W ctl vp st Hstop) as Hclosed.
    fold cr in Hclosed. rewrite Hclosed in Hrun. by inversion Hrun. }
  right. unfold addSource, verify in Hrun. rewrite bind_run in Hrun. simpl in Hrun.
  fold cr in Hrun. unfold stopsAfterCompile in Hstop. rewrite Hstop in Hrun.
  destruct (allowReverification (config ctl)) eqn:Hallow; simpl in Hrun.
  - right. split; [done|]. eexists [], _. split; [by left|]. split; [|exact Hrun]. done.
  - unfold tonReader_isProofDeployed in Hrun. rewrite !bind_run in Hrun. simpl in Hrun.
    fold answer in Hrun.
    destruct (bool_decide (answer = Some true)) eqn:Hanswer.
    + apply bool_decide_eq_true_1 in Hanswer. left. inversion Hrun; subst r st'. simpl.
      rewrite <- app_assoc. done.
    + apply bool_decide_eq_false_1 in Hanswer. right. split; [done|].
      eexists [query], _. split; [by right|]. split; [|exact Hrun].
      simpl. by rewrite <- app_assoc.
Qed.

End Publish.

(** X5. With reverification allowed [addSource] never asks the chain
    reader whether the proof is deployed. *)
Theorem addSource_reverification_allowed_skips_chain_reader (W : World)
    (ctl : Controller) (vp : SourceVerifyPayload) (st st' : State)
    (r : Result VerifyResult) (evs : list Event) :
  allowReverification (config ctl) = true ->
  addSource W ctl vp st = (r, st') ->
  trace st' = trace st ++ evs ->
  forallb (fun e => negb (isDeploymentQuery e)) evs = true.
Proof.
  intros Hallow Hrun Htrace.
  apply addSource_cases in Hrun as [(_ & _ & ->) | [(_ & Hno & _) | (_ & Hgo)]].
  - simpl in Htrace. apply app_inv_head in Htrace. by subst evs.
  - congruence.
  - destruct Hgo as (pre & st1 & [[_ ->] | [Hno _]] & Htr1 & Hpub); [|congruence].
    apply publishAndSign_extends in Hpub as (evs' & Htr & Hevs').
    rewrite Htr, Htr1, <- app_assoc in Htrace. apply app_inv_head in Htrace. subst evs.
    simpl. rewrite forallb_forall in *. intros e He. apply Hevs' in He. by destruct e.
Qed.

(** X6. Every run of [addSource] begins by compiling the submitted payload
    with the compiler the payload names, and compiles nothing else. *)
Theorem addSource_compiles_once_first (W : World) (ctl : Controller)
    (vp : SourceVerifyPayload) (st st' : State) (r : Result VerifyResult) :
  addSource W ctl vp st = (r, st') ->
  exists rest,
    trace st' = trace st ++ EvCompile (svp_compiler vp) vp :: rest
    /\ forallb notCompile rest = true.
Proof.
  intros Hrun.
  apply addSource_cases in Hrun as [(_ & _ & ->) | [(_ & _ & _ & _ & Htr) | (_ & Hgo)]].
  - by exists [].
  - eexists [_]. by rewrite Htr.
  - destruct Hgo as (pre & st1 & Hpre & Htr1 & Hpub).
    apply publishAndSign_extends in Hpub as (evs' & Htr & Hevs').
    exists (pre ++ evs'). rewrite Htr, Htr1, <- app_assoc. split; [done|].
    rewrite forallb_app. apply andb_true_iff. split.
    + by destruct Hpre as [[_ ->] | (_ & _ & ->)].
    + rewrite forallb_forall in *. intros e He. apply Hevs' in He. by destruct e.
Qed.

Ltac elem_cases H :=
  repeat (apply elem_of_cons in H as [H|H]; [try discriminate H|]);
  try (apply elem_of_nil in H; destruct H).

(** X7. [addSource] signs last and only after both uploads: a signature in
    the run is made with the controller's own key, it is the final call,
    the two uploads and the log line come just before it, and the run
    returns the compile result with the logged pointer and a message.
    Conversely a returned signature means the run did sign. *)
Theorem addSource_signs_last_after_uploads (W : World) (ctl : Controller)
    (vp : SourceVerifyPayload) (st st' : State) (r : Result VerifyResult)
    (evs : list Event) :
  addSource W ctl vp st = (r, st') ->
  trace st' = trace st ++ evs ->
  (forall h pk,
     EvSign h pk ∈ evs ->
     pk = publicKey (keypair ctl)
     /\ exists pre files contents line vr,
          evs = pre ++ [EvIpfsWrite files; EvIpfsWriteFromContent contents;
                        EvLog line; EvSign h pk]
          /\ forallb (fun e => negb (publishes e)) pre = true
          /\ r = Ok vr
          /\ compileResult vr = compiler_verify W (svp_compiler vp) (disk st) vp
          /\ ipfsLink vr = Some line /\ is_Some (msgCell vr))
  /\ (forall vr, r = Ok vr -> is_Some (sig vr) ->
      exists h, EvSign h (publicKey (keypair ctl)) ∈ evs).
Proof.
  intros Hrun Htrace.
  apply addSource_cases in Hrun as [(_ & -> & ->) | [(_ & _ & _ & -> & Htr) | (_ & Hgo)]].
  - simpl in Htrace. apply app_inv_head in Htrace. subst evs. split.
    + intros h pk Hin. elem_cases Hin.
    + intros vr Hvr [s Hs]. inversion Hvr; subst vr. discriminate.
  - rewrite Htr in Htrace. apply app_inv_head in Htrace. subst evs. split.
    + intros h pk Hin. elem_cases Hin.
    + intros vr Hvr [s Hs]. inversion Hvr; subst vr. discriminate.
  - destruct Hgo as (pre & st1 & Hpre & Htr1 & Hpub).
    assert (forallb (fun e => negb (publishes e))
              (EvCompile (svp_compiler vp) vp :: pre) = true
            /\ forall h pk, EvSign h pk ∉ EvCompile (svp_compiler vp) vp :: pre)
      as [Hquiet Hnosign].
    { destruct Hpre as [[_ ->] | (_ & _ & ->)]; (split; [done|]);
        intros h pk Hin; elem_cases Hin. }
    apply publishAndSign_cases in Hpub as [files Hcases].
    destruct Hcases as [[-> Htr] | [(contents & line & e & -> & Htr)
                                   | (contents & line & h' & vr & -> & Htr & Hcr & Hsig
                                      & Hlink & Hmsg)]];
      rewrite Htr, Htr1, <- app_assoc in Htrace; apply app_inv_head in Htrace;
      subst evs.
    + split; [|by intros].
      intros h pk Hin. apply elem_of_app in Hin as [Hin | Hin].
      * by apply Hnosign in Hin.
      * elem_cases Hin.
    + split; [|by intros].
      intros h pk Hin. apply elem_of_app in Hin as [Hin | Hin].
      * by apply Hnosign in Hin.
      * elem_cases Hin.
    + split.
      * intros h pk Hin. apply elem_of_app in Hin as [Hin | Hin];
          [by apply Hnosign in Hin|].
        elem_cases Hin. inversion Hin; subst h' pk. split; [done|].
        exists (EvCompile (svp_compiler vp) vp :: pre), files, contents, line, vr.
        done.
      * intros vr' _ _. exists h'. apply elem_of_app. right.
        rewrite !elem_of_cons. auto.
Qed.

(** X8. With reverification not allowed and a compile result that is
    accepted, [addSource] answers "already deployed" exactly when the chain
    reader's answer is [true]: [false] and undefined both let it go on. *)
Theorem addSource_deployed_answer_decides (W : World) (ctl : Controller)
    (vp : SourceVerifyPayload) (st st' : State) (r : Result VerifyResult) :
  let cr := compiler_verify W (svp_compiler vp) (disk st) vp in
  allowReverification (config ctl) = false ->
  stopsAfterCompile cr = false ->
  addSource W ctl vp st = (r, st') ->
  r = Ok (onlyCompileResult (alreadyDeployed cr))
  <-> isProofDeployed W (svp_knownContractHash vp) (verifierId (config ctl)) = Some true.
Proof.
  intros cr Hallow Hstop Hrun.
  apply addSource_cases in Hrun as [(Hs & _) | [(_ & _ & Hyes & -> & _) | (_ & Hgo)]].
  - fold cr in Hs. congruence.
  - done.
  - destruct Hgo as (pre & st1 & [[Hno _] | (_ & Hanswer & _)] & _ & Hpub); [congruence|].
    split; [|done]. intros ->.
    apply publishAndSign_cases in Hpub as [files Hcases].
    destruct Hcases as [[Hr _] | [(? & ? & ? & Hr & _) | (? & ? & ? & vr & Hr & _ & Hcr & _)]];
      try discriminate.
    inversion Hr; subst vr. simpl in Hcr. fold cr in Hcr.
    unfold stopsAfterCompile in Hstop. rewrite <- Hcr in Hstop. simpl in Hstop.
    discriminate.
Qed.

(** ** [sign]: what it calls, and in which order *)

Lemma runs_extendsWith_weaken {A} (P Q : Event -> bool) (m : M A) :
  (forall e, P e = true -> Q e = true) ->
  runs (extendsWith P) m -> runs (extendsWith Q) m.
Proof. intros HPQ Hm st r st' Hrun. eapply extendsWith_weaken; eauto. Qed.

Section SignFootprint.

Context (W : World).

Lemma appendOwnSignature_sameStorage ctl cell :
  runs sameStorage (appendOwnSignature W ctl cell).
Proof. unfold appendOwnSignature, signatureCell. runs_auto. Qed.

Lemma recompileAndSign_footprint ctl cell tmpDir v :
  runs (extendsWith recompileFootprint) (recompileAndSign W ctl cell tmpDir v).
Proof.
  unfold recompileAndSign. runs_auto.
  - unfold fetchSource. runs_auto.
  - by apply appendOwnSignature_extends.
Qed.

Lemma recompileAndSign_sameStorage ctl cell tmpDir v :
  runs sameStorage (recompileAndSign W ctl cell tmpDir v).
Proof.
  unfold recompileAndSign. runs_auto.
  - apply fetchSource_sameStorage.
  - apply appendOwnSignature_sameStorage.
Qed.

Lemma sign_footprint ctl msg tmpDir :
  runs (extendsWith signFootprint) (sign W ctl msg tmpDir).
Proof.
  unfold sign, tonReader_getVerifierConfig. runs_auto.
  - eapply runs_extendsWith_weaken; [|apply validateMessageCell_extends]. by intros [].
  - eapply runs_extendsWith_weaken; [|apply recompileAndSign_footprint]. by intros [].
Qed.

Lemma sign_sameStorage ctl msg tmpDir : runs sameStorage (sign W ctl msg tmpDir).
Proof.
  unfold sign, tonReader_getVerifierConfig. runs_auto.
  - apply validateMessageCell_sameStorage.
  - apply recompileAndSign_sameStorage.
Qed.

End SignFootprint.

(** X9. [sign] only reads the content storage: whatever the message and
    however the run ends, the store is left as it was, and the calls made
    are among the config query, signature checks, storage reads, scratch
    files, the compilation and the signature; it never uploads, never asks
    whether the proof is deployed and never logs. *)
Theorem sign_only_reads_storage (W : World) (ctl : Controller) (msg : Boc)
    (tmpDir : string) (st st' : State) (r : Result Boc) :
  sign W ctl msg tmpDir st = (r, st') ->
  ipfs st' = ipfs st
  /\ exists evs, trace st' = trace st ++ evs /\ forallb signFootprint evs = true.
Proof.
  intros Hrun. split.
  - by eapply sign_sameStorage.
  - by eapply sign_footprint.
Qed.

(** X10. For every message that decodes to a root, the first call of
    [sign] fetches the verifier config for the controller's own verifier id
    and registry address, whatever the root holds and however the run
    ends, and the config is fetched once. *)
Theorem sign_fetches_config_first (W : World) (ctl : Controller) (msg : Boc)
    (tmpDir : string) (st st' : State) (r : Result Boc) (cell : Cell) :
  fromBoc0 msg = Ok cell ->
  sign W ctl msg tmpDir st = (r, st') ->
  exists rest,
    trace st' = trace st
                ++ EvGetVerifierConfig (verifierId (config ctl))
                     (sourcesRegistryAddress (config ctl)) :: rest
    /\ forallb (fun e => negb (isConfigQuery e)) rest = true.
Proof.
  intros Hcell Hrun.
  rewrite (sign_validated W ctl msg tmpDir st cell Hcell) in Hrun.
  destruct (validated W ctl cell st) as [[v|e] st2] eqn:Hvalid;
    apply validated_extends in Hvalid as [(evs1 & Htr1 & Hev1) _]; simpl in Htr1.
  - apply recompileAndSign_footprint in Hrun as (evs2 & Htr2 & Hev2).
    exists (evs1 ++ evs2). rewrite Htr2, Htr1, <- !app_assoc. split; [done|].
    rewrite forallb_app. apply andb_true_iff.
    rewrite !forallb_forall in *.
    split; intros e He; [apply Hev1 in He | apply Hev2 in He]; by destruct e.
  - inversion Hrun; subst r st'. exists evs1. rewrite Htr1, <- app_assoc.
    split; [done|]. rewrite forallb_forall in *.
    intros e' He. apply Hev1 in He. by destruct e'.
Qed.

(** ** Fetching the sources (lines 176-189) *)

Section Fetch.

Context (W : World).

Lemma fetchSource_run tmpDir s st :
  fetchSource W tmpDir s st =
    let file := path_join W tmpDir (filename s) in
    match url s ≫= (fun p => ipfs st !! p) with
    | Some content =>
        (Ok (withPath s),
         mkState (ipfs st) (<[file := content]> (disk st))
                 (trace st ++ [EvIpfsRead (url s); EvMkdirp (parentDir file);
                               EvWriteFile file content]))
    | None =>
        (Err StorageFailure,
         mkState (ipfs st) (disk st) (trace st ++ [EvIpfsRead (url s)]))
    end.
Proof.
  unfold fetchSource. rewrite bind_run. unfold ipfs_read. simpl.
  destruct (url s ≫= _) as [content|]; [|reflexivity].
  repeat (rewrite bind_run; simpl). unfold mret, M_ret, withPath.
  by rewrite <- !app_assoc.
Qed.

Lemma fetchSource_diskGrows tmpDir s st r st' :
  fetchSource W tmpDir s st = (r, st') -> diskGrows st st'.
Proof.
  rewrite fetchSource_run. simpl. intros Hrun file Hfile.
  destruct (url s ≫= _); inversion Hrun; subst; simpl; [|done].
  destruct (decide (path_join W tmpDir (filename s) = file)) as [->|Hne].
  - rewrite lookup_insert_eq. eauto.
  - by rewrite lookup_insert_ne.
Qed.

Lemma fetchSources_run tmpDir l :
  forall st r st',
    mapM (fetchSource W tmpDir) l st = (r, st') ->
    ipfs st' = ipfs st /\ diskGrows st st'
    /\ match r with
       | Ok srcs =>
           srcs = withPath <$> l
           /\ Forall (readable (ipfs st)) l
           /\ Forall (fun s => is_Some (disk st' !! path_join W tmpDir (filename s))) l
       | Err e => e = StorageFailure /\ Exists (fun s => ~ readable (ipfs st) s) l
       end.
Proof.
  induction l as [|s l IH]; intros st r st' Hrun.
  - inversion Hrun; subst. split; [done|]. split; [by intros file|].
    split; [done|]. split; constructor.
  - change (mapM (fetchSource W tmpDir) (s :: l))
      with (y ← fetchSource W tmpDir s;
            k ← mapM (fetchSource W tmpDir) l; mret (y :: k)) in Hrun.
    rewrite bind_run in Hrun.
    destruct (fetchSource W tmpDir s st) as [[y|e] st1] eqn:Hs.
    + pose proof (fetchSource_diskGrows _ _ _ _ _ Hs) as Hgrow1.
      rewrite fetchSource_run in Hs. simpl in Hs.
      destruct (url s ≫= _) as [content|] eqn:Hurl; [|discriminate].
      inversion Hs; subst y st1. clear Hs.
      rewrite bind_run in Hrun.
      match type of Hrun with
      | context [mapM _ l ?s1] => destruct (mapM (fetchSource W tmpDir) l s1)
                                      as [[k|e] st2] eqn:Hl
      end.
      * apply IH in Hl as (Hipfs & Hgrow & -> & Hread & Hdisk). simpl in Hipfs.
        inversion Hrun; subst r st'. repeat split; try done.
        -- intros file Hfile. by apply Hgrow, Hgrow1.
        -- constructor; [|done]. unfold readable. by rewrite Hurl.
        -- constructor; [|done]. apply Hgrow. simpl. rewrite lookup_insert_eq. eauto.
      * apply IH in Hl as (Hipfs & Hgrow & -> & Hex). simpl in Hipfs.
        inversion Hrun; subst r st'. repeat split; try done.
        -- intros file Hfile. by apply Hgrow, Hgrow1.
        -- by apply Exists_cons_tl.
    + pose proof (fetchSource_diskGrows _ _ _ _ _ Hs) as Hgrow1.
      rewrite fetchSource_run in Hs. simpl in Hs.
      destruct (url s ≫= _) as [content|] eqn:Hurl; [discriminate|].
      inversion Hs; subst e st1. inversion Hrun; subst r st'.
      repeat split; try done. apply Exists_cons_hd. unfold readable. rewrite Hurl.
      by intros [? ?].
Qed.

End Fetch.


(** ** [sign]: the runs that reach the compiler *)

Section SignCases.

Context (W : World).

Lemma appendOwnSignature_run ctl cell st r st' :
  appendOwnSignature W ctl cell st = (r, st') ->
  (st' = st /\ exists e, r = Err e)
  \/ exists payload, st' = afterSigning W ctl payload st.
Proof.
  destruct cell as [b [|payload [|head extra]]].
  - intros Hrun. inversion Hrun; subst. left. eauto.
  - intros Hrun. inversion Hrun; subst. right. by exists payload.
  - unfold appendOwnSignature, signatureCell, lift, emit, mbind, mret, M_bind, M_ret.
    simpl. intros Hrun. right. exists payload. unfold afterSigning.
    destruct (addSignatureCell head _); simpl in Hrun; [|by inversion Hrun].
    destruct (storeRef _ payload) as [b1|]; simpl in Hrun; [|by inversion Hrun].
    destruct (storeRef b1 _); by inversion Hrun.
Qed.

(** Every run of [sign] either ends before the compiler is called, with an
    error and without signing, or validates the message, finds the record
    with the message's code hash, fetches the sources and compiles; it then
    fails on a result that is not "similar" or goes on to the last lines. *)
Lemma sign_cases ctl msg tmpDir st r st' :
  sign W ctl msg tmpDir st = (r, st') ->
  (exists evs e,
     r = Err e /\ trace st' = trace st ++ evs /\ forallb quietEvent evs = true)
  \/ exists cell v st2 content json srcs st4 evs0,
       fromBoc0 msg = Ok cell
       /\ validated W ctl cell st = (Ok v, st2)
       /\ ipfs st2 !! ipfsPointer v = Some content
       /\ JSON_parse W content = Ok json
       /\ si_hash json = codeCellHash v
       /\ mapM (fetchSource W tmpDir) (si_sources json) (afterRead (ipfsPointer v) st2)
          = (Ok srcs, st4)
       /\ trace st4 = trace st ++ evs0 /\ forallb quietEvent evs0 = true
       /\ let p := sourceToVerify W json srcs tmpDir (senderAddress v) in
          let cr := compiler_verify W (si_compiler json) (disk st4) p in
          let st5 := mkState (ipfs st4) (disk st4)
                             (trace st4 ++ [EvCompile (si_compiler json) p]) in
          (result cr ≠ similar /\ r = Err (InvalidCompilationResult (result cr))
           /\ st' = st5)
          \/ (result cr = similar /\ appendOwnSignature W ctl cell st5 = (r, st')).
Proof.
  intros Hrun. destruct (fromBoc0_cases msg) as [Hbad | [cell Hcell]].
  { rewrite (sign_malformed W ctl msg tmpDir st Hbad) in Hrun. inversion Hrun; subst.
    left. exists [], MalformedBoc. by rewrite app_nil_r. }
  rewrite (sign_validated W ctl msg tmpDir st cell Hcell) in Hrun.
  destruct (validated W ctl cell st) as [[v|e] st2] eqn:Hvalid.
  2:{ inversion Hrun; subst r st'.
      apply validated_extends in Hvalid as [(evs & Htr & Hevs) _]. simpl in Htr.
      left. eexists (_ :: evs), e. rewrite Htr, <- app_assoc.
      split; [done|]. split; [done|]. simpl. rewrite forallb_forall in *.
      intros e' He. apply Hevs in He. by destruct e'. }
  assert (exists evs2, trace st2 = trace st ++ evs2 /\ forallb quietEvent evs2 = true)
    as (evs2 & Htr2 & Hq2).
  { apply validated_extends in Hvalid as [(evs & Htr & Hevs) _]. simpl in Htr.
    eexists (_ :: evs). rewrite Htr, <- app_assoc. split; [done|].
    simpl. rewrite forallb_forall in *. intros e' He. apply Hevs in He. by destruct e'. }
  destruct (ipfs st2 !! ipfsPointer v) as [content|] eqn:Hread.
  2:{ unfold recompileAndSign in Hrun. rewrite bind_run in Hrun.
      unfold ipfs_read in Hrun. simpl in Hrun. rewrite Hread in Hrun.
      inversion Hrun; subst r st'. left.
      exists (evs2 ++ [EvIpfsRead (Some (ipfsPointer v))]), StorageFailure.
      simpl. rewrite Htr2, <- app_assoc. split; [done|]. split; [done|].
      by rewrite forallb_app, Hq2. }
  rewrite (recompileAndSign_read W ctl cell tmpDir v st2 content Hread) in Hrun.
  destruct (JSON_parse W content) as [json|e] eqn:Hparse.
  2:{ inversion Hrun; subst r st'. left.
      exists (evs2 ++ [EvIpfsRead (Some (ipfsPointer v))]), e.
      simpl. rewrite Htr2, <- app_assoc. split; [done|]. split; [done|].
      by rewrite forallb_app, Hq2. }
  destruct (bool_decide (si_hash json ≠ codeCellHash v)) eqn:Hhash.
  { inversion Hrun; subst r st'. left.
    exists (evs2 ++ [EvIpfsRead (Some (ipfsPointer v))]), CodeHashMismatch.
    simpl. rewrite Htr2, <- app_assoc. split; [done|]. split; [done|].
    by rewrite forallb_app, Hq2. }
  apply bool_decide_eq_false_1 in Hhash.
  assert (si_hash json = codeCellHash v) as Heq.
  { destruct (decide (si_hash json = codeCellHash v)); [done | by destruct Hhash]. }
  destruct (mapM (fetchSource W tmpDir) (si_sources json) (afterRead (ipfsPointer v) st2))
    as [[srcs|e] st4] eqn:Hfetch.
  2:{ inversion Hrun; subst r st'. left.
      apply (runs_mapM (extendsWith isFetch)) in Hfetch as (evs4 & Htr4 & Hev4);
        [|apply fetchSource_extends].
      exists (evs2 ++ EvIpfsRead (Some (ipfsPointer v)) :: evs4), e.
      simpl in Htr4. rewrite Htr4, Htr2, <- !app_assoc. split; [done|]. split; [done|].
      rewrite forallb_app, Hq2. simpl. rewrite forallb_forall in *.
      intros e' He. apply Hev4 in He. by destruct e'. }
  right. exists cell, v, st2, content, json, srcs, st4.
  pose proof Hfetch as Hfetch'.
  apply (runs_mapM (extendsWith isFetch)) in Hfetch' as (evs4 & Htr4 & Hev4);
    [|apply fetchSource_extends].
  exists (evs2 ++ EvIpfsRead (Some (ipfsPointer v)) :: evs4).
  simpl in Htr4. repeat (split; [done|]).
  split; [by rewrite Htr4, Htr2, <- !app_assoc|]. split.
  { rewrite forallb_app, Hq2. simpl. rewrite forallb_forall in *.
    intros e' He. apply Hev4 in He. by destruct e'. }
  simpl in Hrun. simpl.
  destruct (bool_decide (result _ ≠ similar)) eqn:Hres.
  - apply bool_decide_eq_true_1 in Hres. left. by inversion Hrun.
  - apply bool_decide_eq_false_1 in Hres. right. split; [|done].
    match goal with |- ?x = similar => destruct (decide (x = similar)); [done|] end.
    by destruct Hres.
Qed.

End SignCases.

Lemma quiet_has_no_sign evs h pk :
  forallb quietEvent evs = true -> EvSign h pk ∉ evs.
Proof.
  intros Hq Hin. rewrite forallb_forall in Hq.
  apply list_elem_of_In, Hq in Hin. discriminate.
Qed.

Lemma quiet_has_no_compile evs c p :
  forallb quietEvent evs = true -> EvCompile c p ∉ evs.
Proof.
  intros Hq Hin. rewrite forallb_forall in Hq.
  apply list_elem_of_In, Hq in Hin. discriminate.
Qed.

(** X12. [sign] signs at most once, as its very last call and with the
    controller's own key, and only right after a recompilation whose
    result was "similar": up to that compilation the run neither compiled
    nor signed. *)
Theorem sign_signs_last_after_similar_recompile (W : World) (ctl : Controller)
    (msg : Boc) (tmpDir : string) (st st' : State) (r : Result Boc)
    (evs : list Event) (h pk : Bits) :
  sign W ctl msg tmpDir st = (r, st') ->
  trace st' = trace st ++ evs ->
  EvSign h pk ∈ evs ->
  pk = publicKey (keypair ctl)
  /\ exists pre c p,
       evs = pre ++ [EvCompile c p; EvSign h pk]
       /\ forallb quietEvent pre = true
       /\ result (compiler_verify W c (disk st') p) = similar.
Proof.
  intros Hrun Htrace Hin.
  apply sign_cases in Hrun as [(evs' & e & _ & Htr & Hq) | Hreach].
  { rewrite Htr in Htrace. apply app_inv_head in Htrace. subst evs'.
    by apply quiet_has_no_sign with (h := h) (pk := pk) in Hq. }
  destruct Hreach as (cell & v & st2 & content & json & srcs & st4 & evs0 & _ & _ & _ & _
                      & _ & _ & Htr4 & Hq & Hend).
  simpl in Hend. destruct Hend as [(_ & _ & ->) | [Hsim Happend]].
  { simpl in Htrace. rewrite Htr4, <- app_assoc in Htrace.
    apply app_inv_head in Htrace. subst evs.
    apply elem_of_app in Hin as [Hin | Hin]; [by apply quiet_has_no_sign in Hin|].
    elem_cases Hin. }
  apply appendOwnSignature_run in Happend as [[-> _] | [payload ->]];
    simpl in Htrace; rewrite Htr4, <- !app_assoc in Htrace;
    apply app_inv_head in Htrace; subst evs.
  - apply elem_of_app in Hin as [Hin | Hin]; [by apply quiet_has_no_sign in Hin|].
    elem_cases Hin.
  - apply elem_of_app in Hin as [Hin | Hin]; [by apply quiet_has_no_sign in Hin|].
    simpl in Hin. elem_cases Hin. inversion Hin; subst h pk. split; [done|].
    by eexists evs0, _, _.
Qed.

(** X13. Whenever [sign] calls the compiler, the message has been
    validated and the payload compiled is built from the stored record of
    the message's pointer: the record's compiler, the record's contract
    address, the record's sources in order with [path] set to the file
    name, the caller's working directory, the validated sender, and as
    known contract hash the record's hash, which is the message's code
    hash. *)
Theorem sign_recompiles_against_message_hash (W : World) (ctl : Controller)
    (msg : Boc) (tmpDir : string) (st st' : State) (r : Result Boc)
    (evs : list Event) (c : Compiler) (p : SourceVerifyPayload) :
  sign W ctl msg tmpDir st = (r, st') ->
  trace st' = trace st ++ evs ->
  EvCompile c p ∈ evs ->
  exists cell v st2 content json,
    fromBoc0 msg = Ok cell
    /\ validated W ctl cell st = (Ok v, st2)
    /\ ipfs st !! ipfsPointer v = Some content
    /\ JSON_parse W content = Ok json
    /\ c = si_compiler json
    /\ svp_compiler p = si_compiler json
    /\ svp_knownContractHash p = codeCellHash v
    /\ svp_knownContractHash p = si_hash json
    /\ svp_knownContractAddress p = si_knownContractAddress json
    /\ svp_sources p = withPath <$> si_sources json
    /\ svp_tmpDir p = tmpDir
    /\ svp_senderAddress p = Address_toString W (senderAddress v).
Proof.
  intros Hrun Htrace Hin.
  apply sign_cases in Hrun as [(evs' & e & _ & Htr & Hq) | Hreach].
  { rewrite Htr in Htrace. apply app_inv_head in Htrace. subst evs'.
    by apply quiet_has_no_compile with (c := c) (p := p) in Hq. }
  destruct Hreach as (cell & v & st2 & content & json & srcs & st4 & evs0 & Hcell & Hvalid
                      & Hread & Hparse & Heq & Hfetch & Htr4 & Hq & Hend).
  assert (EvCompile c p = EvCompile (si_compiler json)
                            (sourceToVerify W json srcs tmpDir (senderAddress v)))
    as Hev.
  { simpl in Hend. destruct Hend as [(_ & _ & ->) | [Hsim Happend]].
    - simpl in Htrace. rewrite Htr4, <- app_assoc in Htrace.
      apply app_inv_head in Htrace. subst evs.
      apply elem_of_app in Hin as [Hin | Hin]; [by apply quiet_has_no_compile in Hin|].
      by elem_cases Hin.
    - apply appendOwnSignature_run in Happend as [[-> _] | [payload ->]];
        simpl in Htrace; rewrite Htr4, <- !app_assoc in Htrace;
        apply app_inv_head in Htrace; subst evs;
        (apply elem_of_app in Hin as [Hin | Hin];
         [by apply quiet_has_no_compile in Hin|]); simpl in Hin.
      + by elem_cases Hin.
      + apply elem_of_cons in Hin as [Hin | Hin]; [done|]. elem_cases Hin. }
  inversion Hev; subst c p.
  apply fetchSources_run in Hfetch as (_ & _ & -> & _).
  pose proof Hvalid as Hsame. apply validated_extends in Hsame as [_ Hsame].
  unfold sameStorage in Hsame. simpl in Hsame. rewrite Hsame in Hread.
  exists cell, v, st2, content, json. by repeat split.
Qed.

(** ** The directory made for a fetched file (line 181) *)

Lemma lastIndexOf_slash_noSlash s i found :
  noSlash s = true -> lastIndexOf_slash s i found = found.
Proof.
  revert i found. induction s as [|c s IH]; intros i found Hs; simpl in *; [done|].
  apply andb_true_iff in Hs as [Hc Hs]. rewrite IH by done.
  by destruct (Ascii.eqb c "/").
Qed.

Lemma lastIndexOf_slash_app d s i found :
  lastIndexOf_slash (d +:+ s) i found
  = lastIndexOf_slash s (i + String.length d) (lastIndexOf_slash d i found).
Proof.
  revert i found. induction d as [|c d IH]; intros i found.
  - change ("" +:+ s) with s. simpl. by rewrite Nat.add_0_r.
  - change (String c d +:+ s) with (String c (d +:+ s)). simpl. rewrite IH.
    by rewrite Nat.add_succ_r.
Qed.

Lemma substring_prefix d rest : String.substring 0 (String.length d) (d +:+ rest) = d.
Proof.
  induction d as [|c d IH].
  - change ("" +:+ rest) with rest. simpl. by destruct rest.
  - change (String c d +:+ rest) with (String c (d +:+ rest)). simpl. by rewrite IH.
Qed.

Lemma substring_is_prefix n p : String.prefix (String.substring 0 n p) p = true.
Proof.
  revert n. induction p as [|c p IH]; intros [|n]; simpl; try done.
  rewrite IH. by destruct (ascii_dec c c).
Qed.

(** X14. The directory [sign] creates for a fetched file is the part of
    the file's path before its last "/": for a path [d/f] with no "/" in
    [f] it is [d]; for a path without "/" it is the empty string; it is
    always a prefix of the path. *)
Theorem parentDir_is_path_before_last_slash :
  (forall d f, noSlash f = true -> parentDir (d +:+ "/" +:+ f) = d)
  /\ (forall p, noSlash p = true -> parentDir p = "")
  /\ (forall p, String.prefix (parentDir p) p = true).
Proof.
  split; [|split].
  - intros d f Hf. unfold parentDir. rewrite lastIndexOf_slash_app.
    change ("/" +:+ f) with (String "/" f). simpl.
    rewrite lastIndexOf_slash_noSlash by done.
    apply (substring_prefix d (String "/" f)).
  - intros p Hp. unfold parentDir. by rewrite lastIndexOf_slash_noSlash.
  - intros p. unfold parentDir. destruct (lastIndexOf_slash p 0 None).
    + apply substring_is_prefix.
    + by destruct p.
Qed.

(** ** The storage stub of the tests *)

Lemma stub_store_lookup (hashOf toUtf8 : list Byte.byte -> string)
    (files : list (list Byte.byte)) :
  forall (storage : gmap string string) (pointer : string),
    fold_left (fun m file => <[hashOf file := toUtf8 file]> m) files storage !! pointer
    = match last (filter (fun file => hashOf file = pointer) files) with
      | Some file => Some (toUtf8 file)
      | None => storage !! pointer
      end.
Proof.
  induction files as [|f files IH]; intros storage pointer; simpl; [done|].
  rewrite IH. rewrite filter_cons.
  destruct (decide (hashOf f = pointer)) as [<-|Hne].
  - destruct (filter _ files) as [|g gs] eqn:Hfilter; simpl.
    + by rewrite lookup_insert_eq.
    + destruct (last (g :: gs)) eqn:Hlast; [done|]. by apply last_None in Hlast.
  - destruct (last (filter _ files)); [done|]. by rewrite lookup_insert_ne.
Qed.

(** X15. The stub's [writeFromContent] returns one pointer per buffer,
    the hash of each, and stores under it the buffer decoded as UTF-8:
    reading the pointer of a written buffer gives the decoded text of that
    buffer (not the buffer itself), provided every buffer of the same call
    with the same hash decodes to the same text (otherwise the later one
    wins); and a pointer that is the hash of none of the buffers reads as
    before. *)
Theorem stub_writeFromContent_read (hashOf toUtf8 : list Byte.byte -> string)
    (files : list (list Byte.byte)) (storage : gmap string string) :
  let written := StubCodeStorageProvider.writeFromContent hashOf toUtf8 files storage in
  fst written = hashOf <$> files
  /\ (forall file,
        file ∈ files ->
        (forall other, other ∈ files -> hashOf other = hashOf file ->
                       toUtf8 other = toUtf8 file) ->
        StubCodeStorageProvider.read (hashOf file) (snd written) = Some (toUtf8 file))
  /\ (forall pointer,
        pointer ∉ fst written ->
        StubCodeStorageProvider.read pointer (snd written)
        = StubCodeStorageProvider.read pointer storage).
Proof.
  intros written. split; [done|]. unfold StubCodeStorageProvider.read. simpl.
  split.
  - intros file Hin Huniq. rewrite stub_store_lookup.
    destruct (last (filter _ files)) as [g|] eqn:Hlast.
    + apply last_Some in Hlast as [l' Hl'].
      assert (g ∈ filter (fun f => hashOf f = hashOf file) files) as Hg.
      { rewrite Hl'. apply elem_of_app. right. rewrite elem_of_cons. by left. }
      apply list_elem_of_filter in Hg as [Hhash Hg]. f_equal. by apply Huniq.
    + apply last_None in Hlast.
      assert (file ∈ filter (fun f => hashOf f = hashOf file) files) as Hf
        by by apply list_elem_of_filter.
      rewrite Hlast in Hf. by apply elem_of_nil in Hf.
  - intros pointer Hnot. rewrite stub_store_lookup.
    destruct (last (filter _ files)) as [g|] eqn:Hlast; [|done].
    apply last_Some in Hlast as [l' Hl'].
    assert (g ∈ filter (fun f => hashOf f = pointer) files) as Hg.
    { rewrite Hl'. apply elem_of_app. right. rewrite elem_of_cons. by left. }
    apply list_elem_of_filter in Hg as [Hhash Hg]. destruct Hnot.
    rewrite <- Hhash. by apply list_elem_of_fmap_2.
Qed.

(** ** [SourceItem.getData] *)

(** X16. [getData] succeeds exactly on a stack of at least four entries
    whose first is an integer and whose fourth is null, a cell, a slice or
    a builder: it returns the first as the verifier id and the fourth as
    the data (nothing for null), whatever the second and third entries and
    anything after the fourth are.  On a stack of fewer than four entries it
    fails. *)
Theorem getData_reads_first_and_fourth
    (get : string -> list TupleItem -> list TupleItem) (verifier : Z)
    (data : option Cell) :
  (getData get = inr (verifier, data)
   <-> exists second third fourth rest,
         get "get_source_item_data" [] = TupleInt verifier :: second :: third :: fourth :: rest
         /\ ((fourth = TupleNull /\ data = None)
             \/ exists c, data = Some c
                          /\ (fourth = TupleCell c \/ fourth = TupleSlice c
                              \/ fourth = TupleBuilder c)))
  /\ ((length (get "get_source_item_data" []) < 4)%nat ->
      exists e, getData get = inl e /\ e ≠ NotACell).
Proof.
  unfold getData. destruct (get "get_source_item_data" []) as [|first stack]; simpl.
  { split; [|eauto]. split; [done|]. by intros (? & ? & ? & ? & ? & _). }
  split.
  - split.
    + intros Hok. destruct first; try discriminate.
      destruct stack as [|second [|third [|fourth rest]]]; simpl in Hok; try discriminate.
      exists second, third, fourth, rest.
      destruct fourth; inversion Hok; subst; split; try done; eauto 6.
    + intros (second & third & fourth & rest & Hstack & Hfourth).
      inversion Hstack; subst. simpl.
      destruct Hfourth as [[-> ->] | (c & -> & [-> | [-> | ->]])]; reflexivity.
  - intros Hshort. destruct first; try (by eexists);
      destruct stack as [|second [|third [|fourth rest]]]; simpl in *;
      try lia; by eexists.
Qed.

(** * Concrete runs for the further properties *)

Import StubMore.

(** X1 at a head with two references. *)
Lemma addSignatureCell_fails_exactly_on_second_ref_witness :
  addSignatureCell (mkCell [true] [emptyCell; emptyCell]) emptyCell
  = Err TooManyReferences.
Proof.
  apply (addSignatureCell_fails_exactly_on_second_ref
           (mkCell [true] [emptyCell; emptyCell]) emptyCell).
  exists (mkCell [true] [emptyCell; emptyCell]). split; [apply onSpine_here|simpl; lia].
Defined.

(** X2 at a chain of one node. *)
Lemma addSignatureCell_result_shape_witness :
  let r := mkCell [true] [mkCell [false] []] in
  bits r = [true] /\ length (refs r) = 1%nat
  /\ onSpine (mkCell [false] []) r
  /\ chainPayloads r = [[true]; [false]].
Proof.
  apply (addSignatureCell_result_shape (mkCell [true] []) (mkCell [false] [])).
  reflexivity.
Defined.

(** X3: appending two nodes in turn, and appending the two linked. *)
Lemma addSignatureCell_twice_witness :
  addSignatureCell (mkCell [true] [mkCell [false] []]) emptyCell
  = (s12 ← addSignatureCell (mkCell [false] []) emptyCell;
     addSignatureCell (mkCell [true] []) s12).
Proof.
  apply (addSignatureCell_twice (mkCell [true] []) (mkCell [false] []) emptyCell).
  reflexivity.
Defined.

(** X4 at a root with a third reference: it comes first in the new root. *)
Lemma appendOwnSignature_by_references_witness :
  let ctl := controllerOf "B" in
  fst (appendOwnSignature wSimilar ctl threeRefs store)
  = Ok [mkCell [] [emptyCell; body;
                   mkCell (sigNode body "A") [mkCell (sigNode body "B") []]]].
Proof.
  intros ctl.
  destruct (appendOwnSignature_by_references wSimilar ctl [] store) as (_ & _ & Hroot).
  unfold threeRefs. rewrite (Hroot body (mkCell (sigNode body "A") []) [emptyCell]).
  - vm_compute. reflexivity.
  - simpl. lia.
Defined.

(** X5 and X6 at a proposal with reverification allowed. *)
Lemma addSource_reverification_allowed_skips_chain_reader_witness :
  let run := addSource wDeployed controllerAllowing payload emptyState in
  forallb (fun e => negb (isDeploymentQuery e)) (trace (snd run)) = true.
Proof.
  intros run.
  apply (addSource_reverification_allowed_skips_chain_reader wDeployed controllerAllowing
           payload emptyState (snd run) (fst run) (trace (snd run))).
  - reflexivity.
  - apply surjective_pairing.
  - reflexivity.
Defined.

Lemma addSource_compiles_once_first_witness :
  let run := addSource wSimilar controllerAllowing payload emptyState in
  exists rest,
    trace (snd run) = [] ++ EvCompile func payload :: rest
    /\ forallb notCompile rest = true.
Proof.
  intros run.
  apply (addSource_compiles_once_first wSimilar controllerAllowing payload emptyState
           (snd run) (fst run)).
  apply surjective_pairing.
Defined.

(** X7 at a proposal that goes through. *)
Lemma addSource_signs_last_after_uploads_witness :
  let ctl := controllerOf "A" in
  let run := addSource wSimilar ctl payload emptyState in
  exists h, EvSign h (publicKey (keypair ctl)) ∈ trace (snd run).
Proof.
  intros ctl run.
  destruct (addSource_signs_last_after_uploads wSimilar ctl payload emptyState (snd run)
              (fst run) (trace (snd run))) as [_ Hsigned].
  - apply surjective_pairing.
  - reflexivity.
  - apply (Hsigned (valueOf (onlyCompileResult (similarResult ∅ payload)) run)).
    + vm_compute. reflexivity.
    + vm_compute. eauto.
Defined.

(** X8 at a chain reader that answers [true]. *)
Lemma addSource_deployed_answer_decides_witness :
  fst (addSource wDeployed (controllerOf "A") payload emptyState)
  = Ok (onlyCompileResult (alreadyDeployed (similarResult ∅ payload))).
Proof.
  set (run := addSource wDeployed (controllerOf "A") payload emptyState).
  apply (addSource_deployed_answer_decides wDeployed (controllerOf "A") payload emptyState
           (snd run) (fst run)).
  - reflexivity.
  - reflexivity.
  - apply surjective_pairing.
  - reflexivity.
Defined.

(** X9 and X10 at the message signed by A, cosigned by B. *)
Lemma sign_only_reads_storage_witness :
  let run := sign wSimilar (controllerOf "B") signedByA "" store in
  ipfs (snd run) = ipfs store
  /\ exists evs, trace (snd run) = trace store ++ evs /\ forallb signFootprint evs = true.
Proof.
  intros run.
  apply (sign_only_reads_storage wSimilar (controllerOf "B") signedByA "" store (snd run)
           (fst run)).
  apply surjective_pairing.
Defined.

Lemma sign_fetches_config_first_witness :
  let run := sign wSimilar (controllerOf "B") signedByA "" store in
  exists rest,
    trace (snd run) = trace store ++ EvGetVerifierConfig "some verifier" "sourcesReg" :: rest
    /\ forallb (fun e => negb (isConfigQuery e)) rest = true.
Proof.
  intros run.
  apply (sign_fetches_config_first wSimilar (controllerOf "B") signedByA "" store (snd run)
           (fst run) (rootOf signedByA)).
  - reflexivity.
  - apply surjective_pairing.
Defined.


(** X12 and X13 at the message signed by A, cosigned by B. *)
Lemma sign_signs_last_after_similar_recompile_witness :
  let ctl := controllerOf "B" in
  let run := sign wSimilar ctl signedByA "" store in
  exists pre c p,
    trace (snd run) = pre ++ [EvCompile c p; EvSign (cellHash wSimilar body) (keyOf "B")]
    /\ forallb quietEvent pre = true
    /\ result (compiler_verify wSimilar c (disk (snd run)) p) = similar.
Proof.
  intros ctl run.
  apply (sign_signs_last_after_similar_recompile wSimilar ctl signedByA "" store (snd run)
           (fst run) (trace (snd run)) (cellHash wSimilar body) (keyOf "B")).
  - apply surjective_pairing.
  - reflexivity.
  - apply list_elem_of_lookup_2 with 4%nat. vm_compute. reflexivity.
Defined.

Lemma sign_recompiles_against_message_hash_witness :
  let ctl := controllerOf "B" in
  let run := sign wSimilar ctl signedByA "" store in
  let p := sourceToVerify wSimilar (storedRecord codeHash None func) [] ""
             (bitsOfUint 267 (uintOfBits (bitsOfString "sender"))) in
  exists cell v st2 content json,
    fromBoc0 signedByA = Ok cell
    /\ validated wSimilar ctl cell store = (Ok v, st2)
    /\ ipfs store !! ipfsPointer v = Some content
    /\ JSON_parse wSimilar content = Ok json
    /\ func = si_compiler json
    /\ svp_compiler p = si_compiler json
    /\ svp_knownContractHash p = codeCellHash v
    /\ svp_knownContractHash p = si_hash json
    /\ svp_knownContractAddress p = si_knownContractAddress json
    /\ svp_sources p = withPath <$> si_sources json
    /\ svp_tmpDir p = ""
    /\ svp_senderAddress p = Address_toString wSimilar (senderAddress v).
Proof.
  intros ctl run p.
  apply (sign_recompiles_against_message_hash wSimilar ctl signedByA "" store (snd run)
           (fst run) (trace (snd run)) func p).
  - apply surjective_pairing.
  - reflexivity.
  - apply list_elem_of_lookup_2 with 3%nat. vm_compute. reflexivity.
Defined.

(** X14 at the path of a fetched file. *)
Lemma parentDir_is_path_before_last_slash_witness :
  parentDir ("tmp/contracts" +:+ "/" +:+ "main.fc") = "tmp/contracts".
Proof.
  destruct parentDir_is_path_before_last_slash as [Hjoined _].
  apply (Hjoined "tmp/contracts" "main.fc"). reflexivity.
Defined.

(** X15 at two buffers written to an empty stub. *)
Lemma stub_writeFromContent_read_witness :
  let hashOf := fun buffer => "Qm" +:+ latin1 buffer in
  let written :=
    StubCodeStorageProvider.writeFromContent hashOf latin1 [[Byte.x61]; [Byte.x62]] ∅ in
  StubCodeStorageProvider.read (hashOf [Byte.x61]) (snd written) = Some "a".
Proof.
  intros hashOf written.
  destruct (stub_writeFromContent_read hashOf latin1 [[Byte.x61]; [Byte.x62]] ∅)
    as (_ & Hread & _).
  apply (Hread [Byte.x61]).
  - rewrite elem_of_cons. by left.
  - intros other Hother Hhash. elem_cases Hother; [by subst|].
    subst other. vm_compute in Hhash. discriminate Hhash.
Defined.

(** X16 at the stack of a deployed source item. *)
Lemma getData_reads_first_and_fourth_witness :
  getData itemStack = inr (7, Some emptyCell).
Proof.
  apply (getData_reads_first_and_fourth itemStack 7 (Some emptyCell)).
  exists TupleNull, TupleNaN, (TupleCell emptyCell), [TupleInt 0].
  split; [reflexivity|]. right. exists emptyCell. auto.
Defined.
